(** * DocChat AI: the chat round trip, document upload and the storage schema

    A shallow embedding of the three React components
    ([ChatInterface], [DocumentSidebar], [Dashboard]) and of the SQL
    migration they run against.  Handlers are written in a small
    state-and-exception monad over the application state; every value that
    the outside world decides (generated keys, clock readings, transport
    failures, the answer of the edge function, what the PDF library
    extracts) is an explicit argument. *)

From Stdlib Require Import List ZArith NArith Bool Lia String Ascii.
From Stdlib Require Import Sorting.Sorted Sorting.Permutation.
Import ListNotations.

Set Implicit Arguments.

(* ================================================================= *)
(** ** JavaScript strings *)

Module Js.

(** A JavaScript string is a sequence of UTF-16 code units. *)
Definition str := list N.

(** An ASCII literal of the source as a JavaScript string. *)
Definition lit (s : string) : str :=
  List.map N_of_ascii (list_ascii_of_string s).

Definition str_eqb (a b : str) : bool :=
  if list_eq_dec N.eq_dec a b then true else false.

(** ECMAScript [WhiteSpace] and [LineTerminator] code points, the
    characters [String.prototype.trim] strips. *)
Definition is_white_space (c : N) : bool :=
  ((c =? 0x09) || (c =? 0x0A) || (c =? 0x0B) || (c =? 0x0C) || (c =? 0x0D)
   || (c =? 0x20) || (c =? 0xA0) || (c =? 0x1680)
   || ((0x2000 <=? c) && (c <=? 0x200A))
   || (c =? 0x2028) || (c =? 0x2029) || (c =? 0x202F) || (c =? 0x205F)
   || (c =? 0x3000) || (c =? 0xFEFF))%N.

Fixpoint trimStart (s : str) : str :=
  match s with
  | c :: s' => if is_white_space c then trimStart s' else s
  | [] => []
  end.

Definition trimEnd (s : str) : str := rev (trimStart (rev s)).

(** [s.trim()] *)
Definition trim (s : str) : str := trimEnd (trimStart s).

(** [xs.join(sep)] *)
Fixpoint join (sep : str) (xs : list str) : str :=
  match xs with
  | [] => []
  | [x] => x
  | x :: rest => x ++ sep ++ join sep rest
  end.

(** The literal of two line feeds. *)
Definition LFLF : str := [10%N; 10%N].

(** A string in a boolean position: only the empty string is falsy. *)
Definition truthy (s : str) : bool :=
  match s with [] => false | _ :: _ => true end.

End Js.

(* ================================================================= *)
(** ** Errors and completions *)

(** What a [catch] clause can receive: an error object returned by the
    storage service (by SQLSTATE class) or any other rejection, of which only
    the message is observed. *)
Inductive Error : Type :=
| unique_violation          (* 23505 *)
| foreign_key_violation     (* 23503 *)
| insufficient_privilege    (* 42501: row-level security *)
| Rejected (message : Js.str).

(** The outcome of an awaited call. *)
Inductive Completion (A : Type) : Type :=
| Normal (a : A)
| Throw (e : Error).
Arguments Normal {A} a.
Arguments Throw {A} e.

(* ================================================================= *)
(** ** PDF text extraction (DocumentSidebar.extractTextFromPDF) *)

Module Pdf.

(** An item of [page.getTextContent()]; only [str] is read. *)
Record TextItem := { str : Js.str }.

(** The document proxy of the parsing library: the page count and, for a
    page number, the items of [getPage(i)] then [getTextContent()], or the
    rejection of either promise. *)
Record PDFDocumentProxy := {
  numPages : nat;
  getPageTextContent : nat -> Completion (list TextItem)
}.

End Pdf.

(** The body of the [for (let i = 1; i <= pdf.numPages; i++)] loop, run for
    the [n] page numbers starting at [i], threading [fullText]. *)
Fixpoint extract_loop (pdf : Pdf.PDFDocumentProxy) (n i : nat)
         (fullText : Js.str) : Completion Js.str :=
  match n with
  | O => Normal fullText
  | S n' =>
      match Pdf.getPageTextContent pdf i with
      | Throw e => Throw e
      | Normal items =>
          let pageText := Js.join (Js.lit " ") (List.map Pdf.str items) in
          extract_loop pdf n' (S i) (fullText ++ pageText ++ Js.LFLF)
      end
  end.

(** [extractTextFromPDF], given what [getDocument] resolved to for the
    file's bytes. *)
Definition extractTextFromPDF (parsed : Completion Pdf.PDFDocumentProxy)
  : Completion Js.str :=
  match parsed with
  | Throw e => Throw e
  | Normal pdf =>
      match extract_loop pdf (Pdf.numPages pdf) 1 [] with
      | Throw e => Throw e
      | Normal fullText => Normal (Js.trim fullText)
      end
  end.

(** The text of the pages as the specification words it: every page is its
    items joined by one space and followed by two line feeds, the pages are
    concatenated and the whole is trimmed. *)
Definition page_text (items : list Pdf.TextItem) : Js.str :=
  Js.join [32%N] (List.map Pdf.str items) ++ [10%N; 10%N].

Definition spec_extracted_text (pages : list (list Pdf.TextItem)) : Js.str :=
  Js.trim (List.concat (List.map page_text pages)).

(** The pages of a document proxy, numbered from 1. *)
Definition pages_of (pdf : Pdf.PDFDocumentProxy) : list (Completion (list Pdf.TextItem)) :=
  List.map (Pdf.getPageTextContent pdf) (seq 1 (Pdf.numPages pdf)).

(* ================================================================= *)
(** ** The storage schema (the SQL migration)

    Tables are lists of rows in the order they were stored.  Modelled from
    the migration: primary keys, the foreign keys among the three tables with
    their [ON DELETE CASCADE], the row-level-security policies, and the
    [DEFAULT] clauses, whose values ([gen_random_uuid()], [now()]) are
    supplied with each insert.  [auth.users] belongs to the hosted service;
    the signed-in user is taken to be one of its rows. *)

Definition uuid := N.
Definition timestamptz := Z.

(** [auth.uid() = u] for the role [authenticated]; the anonymous role
    ([None]) satisfies no policy. *)
Definition is_uid (uid : option uuid) (u : uuid) : bool :=
  match uid with
  | Some v => N.eqb v u
  | None => false
  end.

(** [ORDER BY] as a stable insertion sort on the order the rows were stored
    in. *)
Fixpoint insert_by (A : Type) (le : A -> A -> bool) (x : A) (l : list A) : list A :=
  match l with
  | [] => [x]
  | y :: l' => if le x y then x :: l else y :: insert_by le x l'
  end.

Definition order_by (A : Type) (le : A -> A -> bool) (l : list A) : list A :=
  fold_right (insert_by le) [] l.

Module Pg.

(** The values the [DEFAULT] clauses of an inserted row evaluate to. *)
Record Generated := { gen_random_uuid : uuid; now : timestamptz }.

Module Document.
Record t := {
  id : uuid;
  user_id : uuid;
  title : Js.str;
  content : Js.str;
  file_type : Js.str;
  file_size : Z;
  created_at : timestamptz;
  updated_at : timestamptz
}.
(** [ORDER BY created_at DESC] *)
Definition newest_first (x y : t) : bool := Z.leb (created_at y) (created_at x).
End Document.

Module ChatSession.
Record t := {
  id : uuid;
  user_id : uuid;
  document_id : uuid;
  created_at : timestamptz;
  updated_at : timestamptz
}.
(** [ORDER BY created_at DESC] *)
Definition newest_first (x y : t) : bool := Z.leb (created_at y) (created_at x).
End ChatSession.

Module ChatMessage.
(** [CHECK (role IN ('user', 'assistant'))] *)
Inductive role_t := user | assistant.
Record t := {
  id : uuid;
  session_id : uuid;
  role : role_t;
  content : Js.str;
  created_at : timestamptz
}.
(** [ORDER BY created_at ASC] *)
Definition oldest_first (x y : t) : bool := Z.leb (created_at x) (created_at y).
End ChatMessage.

Record DB := {
  documents : list Document.t;
  chat_sessions : list ChatSession.t;
  chat_messages : list ChatMessage.t
}.

(** *** documents *)

(** [INSERT INTO documents]: policy "Users can create documents", then the
    primary key. *)
Definition insert_document (uid : option uuid) (g : Generated)
           (user_id : uuid) (title content file_type : Js.str) (file_size : Z)
           (db : DB) : Completion DB :=
  if negb (is_uid uid user_id) then Throw insufficient_privilege
  else if existsb (fun d => N.eqb (Document.id d) (gen_random_uuid g)) (documents db)
  then Throw unique_violation
  else
    let row := {| Document.id := gen_random_uuid g;
                  Document.user_id := user_id;
                  Document.title := title;
                  Document.content := content;
                  Document.file_type := file_type;
                  Document.file_size := file_size;
                  Document.created_at := now g;
                  Document.updated_at := now g |} in
    Normal {| documents := documents db ++ [row];
              chat_sessions := chat_sessions db;
              chat_messages := chat_messages db |}.

(** [SELECT * FROM documents ORDER BY created_at DESC] under policy
    "Users can view own documents". *)
Definition select_documents (uid : option uuid) (db : DB) : list Document.t :=
  order_by Document.newest_first
           (filter (fun d => is_uid uid (Document.user_id d)) (documents db)).

(** The rows [DELETE FROM documents WHERE id = ...] removes under policy
    "Users can delete own documents". *)
Definition deleted_document (uid : option uuid) (id : uuid) (d : Document.t) : bool :=
  N.eqb (Document.id d) id && is_uid uid (Document.user_id d).

(** [document_id ... REFERENCES documents(id) ON DELETE CASCADE]: the
    sessions that go with the deleted rows.  Cascades are not subject to
    row-level security. *)
Definition cascaded_session (uid : option uuid) (id : uuid) (db : DB)
           (s : ChatSession.t) : bool :=
  existsb (fun d => deleted_document uid id d
                    && N.eqb (Document.id d) (ChatSession.document_id s))
          (documents db).

(** [session_id ... REFERENCES chat_sessions(id) ON DELETE CASCADE] *)
Definition cascaded_message (uid : option uuid) (id : uuid) (db : DB)
           (m : ChatMessage.t) : bool :=
  existsb (fun s => cascaded_session uid id db s
                    && N.eqb (ChatSession.id s) (ChatMessage.session_id m))
          (chat_sessions db).

Definition delete_document (uid : option uuid) (id : uuid) (db : DB) : DB :=
  {| documents := filter (fun d => negb (deleted_document uid id d)) (documents db);
     chat_sessions := filter (fun s => negb (cascaded_session uid id db s)) (chat_sessions db);
     chat_messages := filter (fun m => negb (cascaded_message uid id db m)) (chat_messages db) |}.

(** *** chat_sessions *)

(** [SELECT id FROM chat_sessions WHERE document_id = ... AND user_id = ...
    ORDER BY created_at DESC LIMIT 1] under policy "Users can view own
    sessions". *)
Definition select_latest_session (uid : option uuid) (document_id user_id : uuid)
           (db : DB) : list uuid :=
  List.map ChatSession.id
    (firstn 1
       (order_by ChatSession.newest_first
          (filter (fun s => is_uid uid (ChatSession.user_id s)
                            && N.eqb (ChatSession.document_id s) document_id
                            && N.eqb (ChatSession.user_id s) user_id)
                  (chat_sessions db)))).

(** [INSERT INTO chat_sessions ... RETURNING *]: policy "Users can create
    sessions", the primary key, then the foreign key to [documents]. *)
Definition insert_session (uid : option uuid) (g : Generated)
           (user_id document_id : uuid) (db : DB) : Completion (ChatSession.t * DB) :=
  if negb (is_uid uid user_id) then Throw insufficient_privilege
  else if existsb (fun s => N.eqb (ChatSession.id s) (gen_random_uuid g)) (chat_sessions db)
  then Throw unique_violation
  else if negb (existsb (fun d => N.eqb (Document.id d) document_id) (documents db))
  then Throw foreign_key_violation
  else
    let row := {| ChatSession.id := gen_random_uuid g;
                  ChatSession.user_id := user_id;
                  ChatSession.document_id := document_id;
                  ChatSession.created_at := now g;
                  ChatSession.updated_at := now g |} in
    Normal (row, {| documents := documents db;
                    chat_sessions := chat_sessions db ++ [row];
                    chat_messages := chat_messages db |}).

(** *** chat_messages *)

(** The [EXISTS (SELECT 1 FROM chat_sessions ...)] of both message
    policies. *)
Definition own_session (uid : option uuid) (session_id : uuid) (db : DB) : bool :=
  existsb (fun s => N.eqb (ChatSession.id s) session_id
                    && is_uid uid (ChatSession.user_id s))
          (chat_sessions db).

(** [INSERT INTO chat_messages ... RETURNING *]: policy "Users can insert
    messages in own sessions" (which subsumes the foreign key to
    [chat_sessions]), then the primary key. *)
Definition insert_message (uid : option uuid) (g : Generated)
           (session_id : uuid) (role : ChatMessage.role_t) (content : Js.str)
           (db : DB) : Completion (ChatMessage.t * DB) :=
  if negb (own_session uid session_id db) then Throw insufficient_privilege
  else if existsb (fun m => N.eqb (ChatMessage.id m) (gen_random_uuid g)) (chat_messages db)
  then Throw unique_violation
  else
    let row := {| ChatMessage.id := gen_random_uuid g;
                  ChatMessage.session_id := session_id;
                  ChatMessage.role := role;
                  ChatMessage.content := content;
                  ChatMessage.created_at := now g |} in
    Normal (row, {| documents := documents db;
                    chat_sessions := chat_sessions db;
                    chat_messages := chat_messages db ++ [row] |}).

(** [SELECT * FROM chat_messages WHERE session_id = ... ORDER BY created_at
    ASC] under policy "Users can view messages from own sessions". *)
Definition select_messages (uid : option uuid) (session_id : uuid) (db : DB)
  : list ChatMessage.t :=
  order_by ChatMessage.oldest_first
           (filter (fun m => N.eqb (ChatMessage.session_id m) session_id
                             && own_session uid (ChatMessage.session_id m) db)
                   (chat_messages db)).

End Pg.

(* ================================================================= *)
(** ** The hosted services as the client sees them *)

(** Whether a request was carried out.  [Failed] stands for every failure
    outside the constraints modelled above (no connection, a time-out, a
    payload the service refuses): the tables are left alone and the client
    library hands the failure back as [error], with [data] null. *)
Inductive Fetch : Type :=
| Delivered
| Failed (message : Js.str).

(** The body of a call of the edge function [chat-with-document]. *)
Record InvokeBody := {
  message : Js.str;
  documentContent : Js.str;
  sessionId : uuid
}.

(** A file picked in the upload input: the fields the handler reads, what
    [file.text()] resolves to, and what [file.arrayBuffer()] followed by
    [pdfjsLib.getDocument] resolves to. *)
Module File.
Record t := {
  name : Js.str;
  type : Js.str;
  size : Z;
  text : Completion Js.str;
  pdf : Completion Pdf.PDFDocumentProxy
}.
End File.

Record Toast := {
  title : Js.str;
  description : option Error;     (* [error.message] of this error *)
  destructive : bool
}.

(* ================================================================= *)
(** ** Application state *)

Module App.
Record t := {
  (* the hosted side *)
  db : Pg.DB;
  user : option uuid;                    (* the signed-in user *)
  invocations : list InvokeBody;         (* calls of the edge function so far *)
  (* Dashboard *)
  documents : list Pg.Document.t;
  selectedDocId : option uuid;
  selectedDocContent : Js.str;
  (* ChatInterface *)
  messages : list Pg.ChatMessage.t;
  input : Js.str;
  loading : bool;
  sessionId : option uuid;
  (* DocumentSidebar *)
  uploading : bool;
  (* notifications shown *)
  toasts : list Toast
}.
End App.

Definition with_db (v : Pg.DB) (a : App.t) : App.t :=
  {| App.db := v; App.user := App.user a; App.invocations := App.invocations a;
     App.documents := App.documents a; App.selectedDocId := App.selectedDocId a;
     App.selectedDocContent := App.selectedDocContent a;
     App.messages := App.messages a; App.input := App.input a;
     App.loading := App.loading a; App.sessionId := App.sessionId a;
     App.uploading := App.uploading a; App.toasts := App.toasts a |}.

Definition with_user (v : option uuid) (a : App.t) : App.t :=
  {| App.db := App.db a; App.user := v; App.invocations := App.invocations a;
     App.documents := App.documents a; App.selectedDocId := App.selectedDocId a;
     App.selectedDocContent := App.selectedDocContent a;
     App.messages := App.messages a; App.input := App.input a;
     App.loading := App.loading a; App.sessionId := App.sessionId a;
     App.uploading := App.uploading a; App.toasts := App.toasts a |}.

Definition with_invocations (v : list InvokeBody) (a : App.t) : App.t :=
  {| App.db := App.db a; App.user := App.user a; App.invocations := v;
     App.documents := App.documents a; App.selectedDocId := App.selectedDocId a;
     App.selectedDocContent := App.selectedDocContent a;
     App.messages := App.messages a; App.input := App.input a;
     App.loading := App.loading a; App.sessionId := App.sessionId a;
     App.uploading := App.uploading a; App.toasts := App.toasts a |}.

Definition with_documents (v : list Pg.Document.t) (a : App.t) : App.t :=
  {| App.db := App.db a; App.user := App.user a; App.invocations := App.invocations a;
     App.documents := v; App.selectedDocId := App.selectedDocId a;
     App.selectedDocContent := App.selectedDocContent a;
     App.messages := App.messages a; App.input := App.input a;
     App.loading := App.loading a; App.sessionId := App.sessionId a;
     App.uploading := App.uploading a; App.toasts := App.toasts a |}.

Definition with_selectedDocId (v : option uuid) (a : App.t) : App.t :=
  {| App.db := App.db a; App.user := App.user a; App.invocations := App.invocations a;
     App.documents := App.documents a; App.selectedDocId := v;
     App.selectedDocContent := App.selectedDocContent a;
     App.messages := App.messages a; App.input := App.input a;
     App.loading := App.loading a; App.sessionId := App.sessionId a;
     App.uploading := App.uploading a; App.toasts := App.toasts a |}.

Definition with_selectedDocContent (v : Js.str) (a : App.t) : App.t :=
  {| App.db := App.db a; App.user := App.user a; App.invocations := App.invocations a;
     App.documents := App.documents a; App.selectedDocId := App.selectedDocId a;
     App.selectedDocContent := v;
     App.messages := App.messages a; App.input := App.input a;
     App.loading := App.loading a; App.sessionId := App.sessionId a;
     App.uploading := App.uploading a; App.toasts := App.toasts a |}.

Definition with_messages (v : list Pg.ChatMessage.t) (a : App.t) : App.t :=
  {| App.db := App.db a; App.user := App.user a; App.invocations := App.invocations a;
     App.documents := App.documents a; App.selectedDocId := App.selectedDocId a;
     App.selectedDocContent := App.selectedDocContent a;
     App.messages := v; App.input := App.input a;
     App.loading := App.loading a; App.sessionId := App.sessionId a;
     App.uploading := App.uploading a; App.toasts := App.toasts a |}.

Definition with_input (v : Js.str) (a : App.t) : App.t :=
  {| App.db := App.db a; App.user := App.user a; App.invocations := App.invocations a;
     App.documents := App.documents a; App.selectedDocId := App.selectedDocId a;
     App.selectedDocContent := App.selectedDocContent a;
     App.messages := App.messages a; App.input := v;
     App.loading := App.loading a; App.sessionId := App.sessionId a;
     App.uploading := App.uploading a; App.toasts := App.toasts a |}.

Definition with_loading (v : bool) (a : App.t) : App.t :=
  {| App.db := App.db a; App.user := App.user a; App.invocations := App.invocations a;
     App.documents := App.documents a; App.selectedDocId := App.selectedDocId a;
     App.selectedDocContent := App.selectedDocContent a;
     App.messages := App.messages a; App.input := App.input a;
     App.loading := v; App.sessionId := App.sessionId a;
     App.uploading := App.uploading a; App.toasts := App.toasts a |}.

Definition with_sessionId (v : option uuid) (a : App.t) : App.t :=
  {| App.db := App.db a; App.user := App.user a; App.invocations := App.invocations a;
     App.documents := App.documents a; App.selectedDocId := App.selectedDocId a;
     App.selectedDocContent := App.selectedDocContent a;
     App.messages := App.messages a; App.input := App.input a;
     App.loading := App.loading a; App.sessionId := v;
     App.uploading := App.uploading a; App.toasts := App.toasts a |}.

Definition with_uploading (v : bool) (a : App.t) : App.t :=
  {| App.db := App.db a; App.user := App.user a; App.invocations := App.invocations a;
     App.documents := App.documents a; App.selectedDocId := App.selectedDocId a;
     App.selectedDocContent := App.selectedDocContent a;
     App.messages := App.messages a; App.input := App.input a;
     App.loading := App.loading a; App.sessionId := App.sessionId a;
     App.uploading := v; App.toasts := App.toasts a |}.

Definition with_toasts (v : list Toast) (a : App.t) : App.t :=
  {| App.db := App.db a; App.user := App.user a; App.invocations := App.invocations a;
     App.documents := App.documents a; App.selectedDocId := App.selectedDocId a;
     App.selectedDocContent := App.selectedDocContent a;
     App.messages := App.messages a; App.input := App.input a;
     App.loading := App.loading a; App.sessionId := App.sessionId a;
     App.uploading := App.uploading a; App.toasts := v |}.

(* ================================================================= *)
(** ** Handlers as state-and-exception computations *)

Definition M (A : Type) : Type := App.t -> Completion A * App.t.

Definition ret (A : Type) (x : A) : M A := fun a => (Normal x, a).

Definition bind (A B : Type) (c : M A) (k : A -> M B) : M B :=
  fun a =>
    match c a with
    | (Normal x, a') => k x a'
    | (Throw e, a') => (Throw e, a')
    end.

Definition throw (A : Type) (e : Error) : M A := fun a => (Throw e, a).
Arguments throw {A} e.

Definition gets (A : Type) (f : App.t -> A) : M A := fun a => (Normal (f a), a).

Definition modify (f : App.t -> App.t) : M unit := fun a => (Normal tt, f a).

(** [try { body } catch (error) { handler error }] *)
Definition try_catch (A : Type) (body : M A) (handler : Error -> M A) : M A :=
  fun a =>
    match body a with
    | (Normal x, a') => (Normal x, a')
    | (Throw e, a') => handler e a'
    end.

(** [try { body } finally { fin }], for a [fin] that does not throw. *)
Definition try_finally (A : Type) (body : M A) (fin : M unit) : M A :=
  fun a =>
    match body a with
    | (r, a') => (r, snd (fin a'))
    end.

(** [if (error) throw error] on a [{ data, error }] answer. *)
Definition orThrow (A : Type) (r : Completion A) : M A :=
  match r with
  | Normal x => ret x
  | Throw e => throw e
  end.

Declare Scope handler_scope.
Delimit Scope handler_scope with handler.
Notation "x <- c ;; k" := (bind c (fun x => k))
  (at level 61, c at next level, right associativity) : handler_scope.
Notation "c ;; k" := (bind c (fun _ => k))
  (at level 61, right associativity) : handler_scope.
Open Scope handler_scope.

(** The state a handler leaves behind. *)
Definition run (A : Type) (c : M A) (a : App.t) : App.t := snd (c a).

(* ================================================================= *)
(** ** The client library *)

(** A storage request: a transport failure leaves the tables alone and
    comes back as [error]; otherwise the statement runs as the signed-in
    user and its outcome is the [{ data, error }] answer. *)
Definition request (A : Type) (f : Fetch)
           (statement : option uuid -> Pg.DB -> Completion (A * Pg.DB))
  : M (Completion A) :=
  fun a =>
    match f with
    | Failed m => (Normal (Throw (Rejected m)), a)
    | Delivered =>
        match statement (App.user a) (App.db a) with
        | Normal (x, db') => (Normal (Normal x), with_db db' a)
        | Throw e => (Normal (Throw e), a)
        end
    end.

(** A statement that only reads. *)
Definition query (A : Type) (q : option uuid -> Pg.DB -> A)
  : option uuid -> Pg.DB -> Completion (A * Pg.DB) :=
  fun uid db => Normal (q uid db, db).

(** [supabase.auth.getUser()] *)
Definition auth_getUser : M (option uuid) := gets App.user.

(** [supabase.auth.signOut()] *)
Definition auth_signOut : M unit := modify (with_user None).

(** [supabase.functions.invoke("chat-with-document", { body })]: the call is
    recorded; [answer] is what the function returned, [data.message] or the
    error. *)
Definition functions_invoke (answer : Completion Js.str) (body : InvokeBody)
  : M (Completion Js.str) :=
  fun a => (Normal answer, with_invocations (App.invocations a ++ [body]) a).

Definition toast (t : Toast) : M unit :=
  modify (fun a => with_toasts (App.toasts a ++ [t]) a).

Definition error_toast (title : string) (e : Error) : Toast :=
  {| title := Js.lit title; description := Some e; destructive := true |}.

Definition plain_toast (title : string) : Toast :=
  {| title := Js.lit title; description := None; destructive := false |}.

(* ================================================================= *)
(** ** ChatInterface *)

(** [loadMessages(sessId)] *)
Definition loadMessages (on_select : Fetch) (sessId : uuid) : M unit :=
  r <- request on_select (query (fun uid => Pg.select_messages uid sessId)) ;;
  match r with
  | Throw error => toast (error_toast "Error loading messages" error)
  | Normal data => modify (with_messages data)
  end.

(** What the services answer during one [loadOrCreateSession]. *)
Record SessionAnswers := {
  on_session_select : Fetch;
  on_session_insert : Fetch;
  session_defaults : Pg.Generated;
  on_messages_select : Fetch
}.

(** [loadOrCreateSession()], for the prop [documentId]. *)
Definition loadOrCreateSession (documentId : option uuid) (w : SessionAnswers)
  : M unit :=
  match documentId with
  | None => ret tt
  | Some documentId =>
      try_catch
        (user <- auth_getUser ;;
         match user with
         | None => ret tt
         | Some user_id =>
             (* only [data] of the answer is read *)
             sessions <- request (on_session_select w)
                           (query (fun uid =>
                              Pg.select_latest_session uid documentId user_id)) ;;
             match sessions with
             | Normal (s0 :: _) =>
                 modify (with_sessionId (Some s0)) ;;
                 loadMessages (on_messages_select w) s0
             | _ =>
                 r <- request (on_session_insert w)
                        (fun uid => Pg.insert_session uid (session_defaults w)
                                      user_id documentId) ;;
                 newSession <- orThrow r ;;
                 modify (with_sessionId (Some (Pg.ChatSession.id newSession))) ;;
                 modify (with_messages [])
             end
         end)
        (fun error => toast (error_toast "Session error" error))
  end.

(** *** [loadOrCreateSession] in two halves

    [loadOrCreateSession] is started from an effect and not awaited, and it
    gives way while its session query is in flight; whatever runs meanwhile,
    another run of it included, finds and leaves the state in between.  The
    two halves are the handler cut at the answer of that query. *)




(** What the services answer during one [handleSend]. *)
Record SendAnswers := {
  on_user_insert : Fetch;
  user_defaults : Pg.Generated;
  answer : Completion Js.str;
  on_assistant_insert : Fetch;
  assistant_defaults : Pg.Generated
}.

(** The guard [!input.trim() || !sessionId || !documentContent]. *)
Definition send_refused (input : Js.str) (sessionId : option uuid)
           (documentContent : Js.str) : bool :=
  negb (Js.truthy (Js.trim input))
  || match sessionId with None => true | Some _ => false end
  || negb (Js.truthy documentContent).

(** [handleSend()], for the prop [documentContent]. *)
Definition handleSend (documentContent : Js.str) (w : SendAnswers) : M unit :=
  input <- gets App.input ;;
  sessionId <- gets App.sessionId ;;
  if send_refused input sessionId documentContent then ret tt
  else
    match sessionId with
    | None => ret tt
    | Some sid =>
        let userMessage := Js.trim input in
        modify (with_input []) ;;
        modify (with_loading true) ;;
        try_finally
          (try_catch
             (r <- request (on_user_insert w)
                    (fun uid => Pg.insert_message uid (user_defaults w) sid
                                  Pg.ChatMessage.user userMessage) ;;
              savedUserMsg <- orThrow r ;;
              modify (fun a => with_messages (App.messages a ++ [savedUserMsg]) a) ;;
              r <- functions_invoke (answer w)
                     {| message := userMessage;
                        documentContent := documentContent;
                        sessionId := sid |} ;;
              assistantMsg <- orThrow r ;;
              r <- request (on_assistant_insert w)
                     (fun uid => Pg.insert_message uid (assistant_defaults w) sid
                                   Pg.ChatMessage.assistant assistantMsg) ;;
              savedAssistantMsg <- orThrow r ;;
              modify (fun a => with_messages (App.messages a ++ [savedAssistantMsg]) a))
             (fun error => toast (error_toast "Error" error)))
          (modify (with_loading false))
    end.

(* ================================================================= *)
(** ** DocumentSidebar *)

(** What the services answer during one [handleFileUpload]. *)
Record UploadAnswers := {
  on_document_insert : Fetch;
  document_defaults : Pg.Generated;
  on_upload_reload : Fetch
}.

(** What the services answer during one [handleDelete]. *)
Record DeleteAnswers := {
  on_document_delete : Fetch;
  on_delete_reload : Fetch
}.

(* ================================================================= *)
(** ** Dashboard *)

(** [loadDocuments()], also passed down as [onDocumentsChange]. *)
Definition loadDocuments (on_select : Fetch) : M unit :=
  r <- request on_select (query Pg.select_documents) ;;
  match r with
  | Throw error => toast (error_toast "Error loading documents" error)
  | Normal data => modify (with_documents data)
  end.

(** [handleSignOut()] *)
Definition handleSignOut : M unit :=
  auth_signOut ;;
  toast (plain_toast "Signed out successfully").

(** The effect on [selectedDocId, documents]. *)
Definition syncSelectedDocContent : M unit :=
  selectedDocId <- gets App.selectedDocId ;;
  match selectedDocId with
  | Some id =>
      documents <- gets App.documents ;;
      match find (fun d => N.eqb (Pg.Document.id d) id) documents with
      | Some doc => modify (with_selectedDocContent (Pg.Document.content doc))
      | None => ret tt
      end
  | None => ret tt
  end.

(** [file.type === "application/pdf"] *)
Definition is_pdf (file : File.t) : bool :=
  Js.str_eqb (File.type file) (Js.lit "application/pdf").

(** [handleFileUpload(e)], for the file [e.target.files?.[0]].  Resetting the
    input element in [finally] touches no state modelled here. *)
Definition handleFileUpload (file : option File.t) (w : UploadAnswers) : M unit :=
  match file with
  | None => ret tt
  | Some file =>
      modify (with_uploading true) ;;
      try_finally
        (try_catch
           (text <- (if is_pdf file
                     then orThrow (extractTextFromPDF (File.pdf file))
                     else orThrow (File.text file)) ;;
            user <- auth_getUser ;;
            match user with
            | None => throw (Rejected (Js.lit "Not authenticated"))
            | Some user_id =>
                r <- request (on_document_insert w)
                       (fun uid db =>
                          match Pg.insert_document uid (document_defaults w) user_id
                                  (File.name file) text (File.type file)
                                  (File.size file) db with
                          | Normal db' => Normal (tt, db')
                          | Throw e => Throw e
                          end) ;;
                orThrow r ;;
                toast (plain_toast "Document uploaded successfully!") ;;
                loadDocuments (on_upload_reload w)
            end)
           (fun error => toast (error_toast "Upload failed" error)))
        (modify (with_uploading false))
  end.

(** [handleDelete(id)] *)
Definition handleDelete (id : uuid) (w : DeleteAnswers) : M unit :=
  try_catch
    (r <- request (on_document_delete w)
           (fun uid db => Normal (tt, Pg.delete_document uid id db)) ;;
     orThrow r ;;
     toast (plain_toast "Document deleted") ;;
     loadDocuments (on_delete_reload w))
    (fun error => toast (error_toast "Delete failed" error)).

(* ================================================================= *)
(** ** The application as a transition system *)

(** What a user can do, with what the services answer meanwhile. *)
Inductive Action : Type :=
| Mount (on_select : Fetch)
| SelectDoc (id : uuid) (w : SessionAnswers)
| TypeInput (value : Js.str)
| Send (w : SendAnswers)
| Upload (file : option File.t) (w : UploadAnswers)
| Delete (id : uuid) (w : DeleteAnswers)
| SignOut.

(** Setting the state to the value it has schedules no effect. *)
Definition same_selection (selected : option uuid) (id : uuid) : bool :=
  match selected with
  | Some id' => N.eqb id' id
  | None => false
  end.

(** One action run to completion, effects included: [ChatInterface] runs
    [loadOrCreateSession] when its [documentId] changes, [Dashboard] syncs
    the selected content when the selection or the list changes.  Actions
    run one after another here: a handler that gives way while a request is
    in flight is resumed before the next action starts.  The code does not
    see to that; runs of [loadOrCreateSession] that overlap are treated
    apart, by its two halves. *)
Definition perform (act : Action) : M unit :=
  match act with
  | Mount on_select =>
      loadDocuments on_select ;;
      syncSelectedDocContent
  | SelectDoc id w =>
      selected <- gets App.selectedDocId ;;
      if same_selection selected id then ret tt
      else
        modify (with_selectedDocId (Some id)) ;;
        loadOrCreateSession (Some id) w ;;
        syncSelectedDocContent
  | TypeInput value => modify (with_input value)
  | Send w =>
      documentContent <- gets App.selectedDocContent ;;
      handleSend documentContent w
  | Upload file w =>
      handleFileUpload file w ;;
      syncSelectedDocContent
  | Delete id w =>
      handleDelete id w ;;
      syncSelectedDocContent
  | SignOut => handleSignOut
  end.

Definition step (act : Action) (a : App.t) : App.t := run (perform act) a.

(** A sequence of actions. *)
Definition steps (acts : list Action) (a : App.t) : App.t :=
  fold_left (fun a act => step act a) acts a.

(* ================================================================= *)
(** ** Vocabulary of the statements *)

(** [s] is a session of user [u] on document [doc]. *)
Definition session_of (u doc : uuid) (s : Pg.ChatSession.t) : Prop :=
  Pg.ChatSession.user_id s = u /\ Pg.ChatSession.document_id s = doc.

(** [x] was created no later than [y]. *)
Definition created_le (x y : Pg.ChatMessage.t) : Prop :=
  (Pg.ChatMessage.created_at x <= Pg.ChatMessage.created_at y)%Z.

(** [x] comes before [y] in [l]. *)
Definition before (A : Type) (x y : A) (l : list A) : Prop :=
  exists l1 l2 l3, l = l1 ++ x :: l2 ++ y :: l3.

(** [s] does not start with white space. *)
Definition starts_black (s : Js.str) : Prop :=
  match s with
  | c :: _ => Js.is_white_space c = false
  | [] => True
  end.

(** The sessions of user [u] on document [doc]. *)
Definition sessions_of (u doc : uuid) (db : Pg.DB) : list Pg.ChatSession.t :=
  filter (fun s => N.eqb (Pg.ChatSession.user_id s) u
                   && N.eqb (Pg.ChatSession.document_id s) doc)
         (Pg.chat_sessions db).

Definition one_session_per_pair (db : Pg.DB) : Prop :=
  forall u doc, List.length (sessions_of u doc db) <= 1.

(** The session query of the action, if it has one, was answered. *)
Definition query_answered (act : Action) : Prop :=
  match act with
  | SelectDoc _ w => on_session_select w = Delivered
  | _ => True
  end.

(* ================================================================= *)
(** ** Statements and invariants of the tables *)

(** One statement of the handlers, run as [uid] and accepted, takes [db] to
    the last argument. *)
Inductive statement (uid : option uuid) (db : Pg.DB) : Pg.DB -> Prop :=
| insert_document_accepted g u title content file_type file_size db' :
    Pg.insert_document uid g u title content file_type file_size db = Normal db' ->
    statement uid db db'
| insert_session_accepted g u doc row db' :
    Pg.insert_session uid g u doc db = Normal (row, db') ->
    statement uid db db'
| insert_message_accepted g sid role content row db' :
    Pg.insert_message uid g sid role content db = Normal (row, db') ->
    statement uid db db'
| delete_document_accepted id :
    statement uid db (Pg.delete_document uid id db).

(** A run of statements, all as [uid]. *)
Inductive statements (uid : option uuid) : Pg.DB -> Pg.DB -> Prop :=
| statements_none db : statements uid db db
| statements_then db db1 db2 :
    statement uid db db1 -> statements uid db1 db2 -> statements uid db db2.

(** Primary keys: no two rows of a table share their [id]. *)
Definition keys_unique (db : Pg.DB) : Prop :=
  NoDup (List.map Pg.Document.id (Pg.documents db))
  /\ NoDup (List.map Pg.ChatSession.id (Pg.chat_sessions db))
  /\ NoDup (List.map Pg.ChatMessage.id (Pg.chat_messages db)).

(** Foreign keys: every session is on a stored document and every message
    in a stored session. *)
Definition references_hold (db : Pg.DB) : Prop :=
  (forall s, In s (Pg.chat_sessions db) ->
             exists d, In d (Pg.documents db)
                       /\ Pg.Document.id d = Pg.ChatSession.document_id s)
  /\ (forall m, In m (Pg.chat_messages db) ->
                exists s, In s (Pg.chat_sessions db)
                          /\ Pg.ChatSession.id s = Pg.ChatMessage.session_id m).

(** The documents of user [u]. *)
Definition documents_of (u : uuid) (db : Pg.DB) : list Pg.Document.t :=
  filter (fun d => N.eqb (Pg.Document.user_id d) u) (Pg.documents db).

(** [s] consists of white space only. *)
Definition blank (s : Js.str) : bool := forallb Js.is_white_space s.

(* ================================================================= *)
(** ** Sample data *)

Module Sample.

(** A two-page document: "Hello" "world" on the first page, "Bye" on the
    second. *)
Definition pages : list (list Pdf.TextItem) :=
  [ [ {| Pdf.str := Js.lit "Hello" |}; {| Pdf.str := Js.lit "world" |} ];
    [ {| Pdf.str := Js.lit "Bye" |} ] ].

Definition pdf : Pdf.PDFDocumentProxy :=
  {| Pdf.numPages := 2;
     Pdf.getPageTextContent := fun i =>
       match i with
       | O => Throw (Rejected (Js.lit "Invalid page request"))
       | S n =>
           match nth_error pages n with
           | Some items => Normal items
           | None => Throw (Rejected (Js.lit "Invalid page request"))
           end
       end |}.

Definition alice : uuid := 7%N.

Definition notes : Pg.Document.t :=
  {| Pg.Document.id := 1%N;
     Pg.Document.user_id := alice;
     Pg.Document.title := Js.lit "notes.txt";
     Pg.Document.content := Js.lit "alpha";
     Pg.Document.file_type := Js.lit "text/plain";
     Pg.Document.file_size := 5%Z;
     Pg.Document.created_at := 50%Z;
     Pg.Document.updated_at := 50%Z |}.

Definition session10 : Pg.ChatSession.t :=
  {| Pg.ChatSession.id := 10%N;
     Pg.ChatSession.user_id := alice;
     Pg.ChatSession.document_id := 1%N;
     Pg.ChatSession.created_at := 100%Z;
     Pg.ChatSession.updated_at := 100%Z |}.

Definition question : Pg.ChatMessage.t :=
  {| Pg.ChatMessage.id := 20%N;
     Pg.ChatMessage.session_id := 10%N;
     Pg.ChatMessage.role := Pg.ChatMessage.user;
     Pg.ChatMessage.content := Js.lit "what is alpha?";
     Pg.ChatMessage.created_at := 110%Z |}.

Definition reply : Pg.ChatMessage.t :=
  {| Pg.ChatMessage.id := 21%N;
     Pg.ChatMessage.session_id := 10%N;
     Pg.ChatMessage.role := Pg.ChatMessage.assistant;
     Pg.ChatMessage.content := Js.lit "a letter";
     Pg.ChatMessage.created_at := 120%Z |}.

(** Alice is signed in, has uploaded and selected her notes and typed
    " hi "; the component state holds [sessionId] and the tables hold
    [sessions] and [stored]. *)
Definition app (sessionId : option uuid) (sessions : list Pg.ChatSession.t)
           (stored : list Pg.ChatMessage.t) : App.t :=
  {| App.db := {| Pg.documents := [notes];
                  Pg.chat_sessions := sessions;
                  Pg.chat_messages := stored |};
     App.user := Some alice;
     App.invocations := [];
     App.documents := [notes];
     App.selectedDocId := Some 1%N;
     App.selectedDocContent := Js.lit "alpha";
     App.messages := [];
     App.input := Js.lit " hi ";
     App.loading := false;
     App.sessionId := sessionId;
     App.uploading := false;
     App.toasts := [] |}.

(** No session yet, none active. *)
Definition fresh : App.t := app None [] [].

(** One session, active, nothing said yet. *)
Definition chatting : App.t := app (Some 10%N) [session10] [].

(** One session with a question and its reply, stored in that order. *)
Definition chatted : App.t := app (Some 10%N) [session10] [question; reply].

(** Every request is answered. *)
Definition send_ok : SendAnswers :=
  {| on_user_insert := Delivered;
     user_defaults := {| Pg.gen_random_uuid := 30%N; Pg.now := 300%Z |};
     answer := Normal (Js.lit "hello");
     on_assistant_insert := Delivered;
     assistant_defaults := {| Pg.gen_random_uuid := 31%N; Pg.now := 310%Z |} |}.

(** A second round, later. *)
Definition send_again : SendAnswers :=
  {| on_user_insert := Delivered;
     user_defaults := {| Pg.gen_random_uuid := 32%N; Pg.now := 320%Z |};
     answer := Normal (Js.lit "again");
     on_assistant_insert := Delivered;
     assistant_defaults := {| Pg.gen_random_uuid := 33%N; Pg.now := 330%Z |} |}.

(** The edge function fails. *)
Definition send_invoke_fails : SendAnswers :=
  {| on_user_insert := Delivered;
     user_defaults := {| Pg.gen_random_uuid := 30%N; Pg.now := 300%Z |};
     answer := Throw (Rejected (Js.lit "Edge Function returned a non-2xx status code"));
     on_assistant_insert := Delivered;
     assistant_defaults := {| Pg.gen_random_uuid := 31%N; Pg.now := 310%Z |} |}.

Definition session_ok : SessionAnswers :=
  {| on_session_select := Delivered;
     on_session_insert := Delivered;
     session_defaults := {| Pg.gen_random_uuid := 11%N; Pg.now := 200%Z |};
     on_messages_select := Delivered |}.

(** The session query fails, the insert that follows is answered. *)
Definition session_select_fails : SessionAnswers :=
  {| on_session_select := Failed (Js.lit "Failed to fetch");
     on_session_insert := Delivered;
     session_defaults := {| Pg.gen_random_uuid := 11%N; Pg.now := 200%Z |};
     on_messages_select := Delivered |}.

Definition session11 : Pg.ChatSession.t :=
  {| Pg.ChatSession.id := 11%N;
     Pg.ChatSession.user_id := alice;
     Pg.ChatSession.document_id := 1%N;
     Pg.ChatSession.created_at := 200%Z;
     Pg.ChatSession.updated_at := 200%Z |}.

Definition todo_txt : File.t :=
  {| File.name := Js.lit "todo.txt";
     File.type := Js.lit "text/plain";
     File.size := 9%Z;
     File.text := Normal (Js.lit " buy milk");
     File.pdf := Throw (Rejected (Js.lit "Invalid PDF structure.")) |}.

Definition broken_pdf : File.t :=
  {| File.name := Js.lit "broken.pdf";
     File.type := Js.lit "application/pdf";
     File.size := 3%Z;
     File.text := Normal (Js.lit "%PD");
     File.pdf := Throw (Rejected (Js.lit "Invalid PDF structure.")) |}.

Definition upload_ok : UploadAnswers :=
  {| on_document_insert := Delivered;
     document_defaults := {| Pg.gen_random_uuid := 2%N; Pg.now := 400%Z |};
     on_upload_reload := Delivered |}.

Definition delete_ok : DeleteAnswers :=
  {| on_document_delete := Delivered;
     on_delete_reload := Delivered |}.

(** Bob and a document of his. *)
Definition bob : uuid := 8%N.

Definition bobs_plan : Pg.Document.t :=
  {| Pg.Document.id := 3%N;
     Pg.Document.user_id := bob;
     Pg.Document.title := Js.lit "plan.md";
     Pg.Document.content := Js.lit "beta";
     Pg.Document.file_type := Js.lit "";
     Pg.Document.file_size := 4%Z;
     Pg.Document.created_at := 60%Z;
     Pg.Document.updated_at := 60%Z |}.

(** Alice's state [chatted], on tables that hold Bob's document too. *)
Definition shared : App.t :=
  with_db {| Pg.documents := [notes; bobs_plan];
             Pg.chat_sessions := [session10];
             Pg.chat_messages := [question; reply] |}
          chatted.

(** Alice's state [chatted] after she signed out. *)
Definition signed_out : App.t := with_user None chatted.

(** The chat is open on session 10, which is not stored. *)
Definition orphaned : App.t := app (Some 10%N) [] [].

(** The row Alice's " hi " is stored as. *)
Definition greeting : Pg.ChatMessage.t :=
  {| Pg.ChatMessage.id := 30%N;
     Pg.ChatMessage.session_id := 10%N;
     Pg.ChatMessage.role := Pg.ChatMessage.user;
     Pg.ChatMessage.content := Js.lit "hi";
     Pg.ChatMessage.created_at := 300%Z |}.

(** The answer of the edge function cannot be stored. *)
Definition send_answer_lost : SendAnswers :=
  {| on_user_insert := Delivered;
     user_defaults := {| Pg.gen_random_uuid := 30%N; Pg.now := 300%Z |};
     answer := Normal (Js.lit "hello");
     on_assistant_insert := Failed (Js.lit "Failed to fetch");
     assistant_defaults := {| Pg.gen_random_uuid := 31%N; Pg.now := 310%Z |} |}.

(** A document whose second page the library fails on. *)
Definition torn_pdf : Pdf.PDFDocumentProxy :=
  {| Pdf.numPages := 2;
     Pdf.getPageTextContent := fun i =>
       match i with
       | 1 => Normal [ {| Pdf.str := Js.lit "Hello" |} ]
       | _ => Throw (Rejected (Js.lit "Invalid page request"))
       end |}.

(** A scan: a page without items and a page with a single blank item. *)
Definition scan_pages : list (list Pdf.TextItem) :=
  [ []; [ {| Pdf.str := Js.lit " " |} ] ].

Definition scan_pdf : Pdf.PDFDocumentProxy :=
  {| Pdf.numPages := 2;
     Pdf.getPageTextContent := fun i =>
       match i with
       | 1 => Normal []
       | _ => Normal [ {| Pdf.str := Js.lit " " |} ]
       end |}.

Definition report_pdf : File.t :=
  {| File.name := Js.lit "report.pdf";
     File.type := Js.lit "application/pdf";
     File.size := 1234%Z;
     File.text := Normal (Js.lit "%PDF-1.7");
     File.pdf := Normal pdf |}.



(** The session query is answered, the insert does not get through. *)
Definition session_insert_fails : SessionAnswers :=
  {| on_session_select := Delivered;
     on_session_insert := Failed (Js.lit "Failed to fetch");
     session_defaults := {| Pg.gen_random_uuid := 11%N; Pg.now := 200%Z |};
     on_messages_select := Delivered |}.

(** A second document of Alice's. *)
Definition outline : Pg.Document.t :=
  {| Pg.Document.id := 4%N;
     Pg.Document.user_id := alice;
     Pg.Document.title := Js.lit "outline.txt";
     Pg.Document.content := Js.lit "beta";
     Pg.Document.file_type := Js.lit "text/plain";
     Pg.Document.file_size := 4%Z;
     Pg.Document.created_at := 70%Z;
     Pg.Document.updated_at := 70%Z |}.

(** Alice's state [chatting], on tables that hold her outline too. *)
Definition two_documents : App.t :=
  with_db {| Pg.documents := [notes; outline];
             Pg.chat_sessions := [session10];
             Pg.chat_messages := [] |}
          chatting.

End Sample.

(* ================================================================= *)
(** * Properties *)

Arguments is_pdf : simpl never.
Arguments extractTextFromPDF : simpl never.
Arguments Js.trim : simpl never.
Arguments Pg.insert_document : simpl never.
Arguments Pg.insert_session : simpl never.
Arguments Pg.insert_message : simpl never.
Arguments Pg.delete_document : simpl never.
Arguments Pg.select_documents : simpl never.
Arguments Pg.select_latest_session : simpl never.
Arguments Pg.select_messages : simpl never.

(** Exposes the state passing of a handler. *)
Ltac handler :=
  unfold run, bind, ret, gets, modify, try_catch, try_finally, orThrow, throw,
         request, query, functions_invoke, toast, auth_getUser, auth_signOut in *.

(** Closes a goal on tables the handler left as they were. *)
Ltac unchanged :=
  repeat split; auto;
  try (exists []; rewrite app_nil_r; split; [reflexivity|contradiction]).

(* ----------------------------------------------------------------- *)
(** ** Trimming *)

Lemma trimStart_spec (s : Js.str) :
  exists pre, s = pre ++ Js.trimStart s
              /\ forallb Js.is_white_space pre = true
              /\ starts_black (Js.trimStart s).
Proof.
  induction s as [|c s (pre & Hs & Hpre & Hhead)].
  - exists []. repeat split.
  - simpl. destruct (Js.is_white_space c) eqn:Hc.
    + exists (c :: pre). simpl. rewrite Hc, Hpre. repeat split; [|assumption].
      now rewrite <- Hs.
    + exists []. repeat split. exact Hc.
Qed.

(** [trim] removes a run of white space at each end, all of it: what is
    left neither starts nor ends with white space. *)
Lemma trim_spec (s : Js.str) :
  exists pre post,
    s = pre ++ Js.trim s ++ post
    /\ forallb Js.is_white_space pre = true
    /\ forallb Js.is_white_space post = true
    /\ starts_black (Js.trim s)
    /\ starts_black (rev (Js.trim s)).
Proof.
  destruct (trimStart_spec s) as (pre & Hs & Hpre & Hhead).
  destruct (trimStart_spec (rev (Js.trimStart s))) as (erp & Hr & Herp & Hlast).
  assert (Ht : Js.trimStart s = Js.trim s ++ rev erp).
  { unfold Js.trim, Js.trimEnd.
    rewrite <- rev_app_distr, <- Hr. now rewrite rev_involutive. }
  exists pre, (rev erp). repeat split.
  - now rewrite <- Ht.
  - exact Hpre.
  - rewrite forallb_forall in *. intros c Hc. apply Herp. now apply in_rev.
  - rewrite Ht in Hhead. destruct (Js.trim s); [exact I|exact Hhead].
  - unfold Js.trim, Js.trimEnd. now rewrite rev_involutive.
Qed.

(* ----------------------------------------------------------------- *)
(** ** PDF text extraction *)

Lemma extract_loop_concat (pdf : Pdf.PDFDocumentProxy) :
  forall n i fullText pages,
    List.map (Pdf.getPageTextContent pdf) (seq i n) = List.map Normal pages ->
    extract_loop pdf n i fullText
    = Normal (fullText ++ List.concat (List.map page_text pages)).
Proof.
  induction n as [|n IH]; intros i fullText pages Hpages.
  - destruct pages; [|discriminate]. simpl. now rewrite app_nil_r.
  - destruct pages as [|items pages]; [discriminate|].
    simpl in Hpages. injection Hpages as Hhead Htail.
    simpl. rewrite Hhead. rewrite (IH _ _ _ Htail).
    unfold page_text, Js.LFLF. now rewrite <- !app_assoc.
Qed.

(** A page the library rejects makes the whole extraction fail. *)
Lemma extract_loop_rejects (pdf : Pdf.PDFDocumentProxy) :
  forall n i fullText k e,
    i <= k < i + n ->
    Pdf.getPageTextContent pdf k = Throw e ->
    exists e', extract_loop pdf n i fullText = Throw e'.
Proof.
  induction n as [|n IH]; intros i fullText k e Hk Hthrow; [lia|].
  simpl. destruct (Pdf.getPageTextContent pdf i) as [items|e0] eqn:Hi.
  - assert (k <> i) by (intros ->; congruence).
    apply (IH (S i) _ k e); [lia|assumption].
  - now exists e0.
Qed.

(** C3. When the parsing library yields the items of every page,
    [extractTextFromPDF] returns the pages' texts, each the page's item
    strings joined by one space and followed by two line feeds, concatenated
    in page order and trimmed at both ends; nothing else is done to the
    library's output. *)
Theorem extractTextFromPDF_is_trimmed_concatenation
        (pdf : Pdf.PDFDocumentProxy) (pages : list (list Pdf.TextItem)) :
  pages_of pdf = List.map Normal pages ->
  extractTextFromPDF (Normal pdf) = Normal (spec_extracted_text pages).
Proof.
  intros Hpages. unfold extractTextFromPDF, spec_extracted_text.
  now rewrite (extract_loop_concat pdf _ _ [] pages Hpages).
Qed.

(** The sample document reads "Hello world", a blank line, "Bye"; the line
    feeds after the last page are trimmed away. *)
Lemma extractTextFromPDF_sample :
  pages_of Sample.pdf = List.map Normal Sample.pages
  /\ extractTextFromPDF (Normal Sample.pdf)
     = Normal (Js.lit "Hello world" ++ Js.LFLF ++ Js.lit "Bye").
Proof.
  split; [reflexivity|].
  apply (extractTextFromPDF_is_trimmed_concatenation Sample.pdf Sample.pages).
  reflexivity.
Defined.

(* ----------------------------------------------------------------- *)
(** ** ORDER BY *)

Section OrderBy.
Variable A : Type.
Variable le : A -> A -> bool.

Lemma insert_by_perm (x : A) (l : list A) : Permutation (insert_by le x l) (x :: l).
Proof.
  induction l as [|y l IH]; simpl; [reflexivity|].
  destruct (le x y); [reflexivity|].
  rewrite IH. apply perm_swap.
Qed.

Lemma order_by_perm (l : list A) : Permutation (order_by le l) l.
Proof.
  induction l as [|x l IH]; simpl; [reflexivity|].
  rewrite insert_by_perm. now apply perm_skip.
Qed.

Lemma order_by_In (x : A) (l : list A) : In x (order_by le l) <-> In x l.
Proof.
  split; apply Permutation_in; [|symmetry]; apply order_by_perm.
Qed.

Lemma order_by_nil (l : list A) : order_by le l = [] -> l = [].
Proof.
  intros H. apply Permutation_nil. rewrite <- H. apply order_by_perm.
Qed.

Hypothesis le_total : forall a b, le a b = true \/ le b a = true.
Hypothesis le_trans : forall a b c, le a b = true -> le b c = true -> le a c = true.

Lemma insert_by_sorted (x : A) (l : list A) :
  StronglySorted (fun a b => le a b = true) l ->
  StronglySorted (fun a b => le a b = true) (insert_by le x l).
Proof.
  induction 1 as [|y l Hs IH Hy]; simpl.
  - constructor; constructor.
  - destruct (le x y) eqn:Hxy.
    + constructor; [now constructor|].
      constructor; [assumption|].
      eapply Forall_impl; [|exact Hy]. intros z Hz. cbn in Hz. eauto.
    + constructor; [assumption|].
      eapply Permutation_Forall; [symmetry; apply insert_by_perm|].
      constructor; [|assumption].
      destruct (le_total x y); congruence.
Qed.

Lemma order_by_sorted (l : list A) :
  StronglySorted (fun a b => le a b = true) (order_by le l).
Proof.
  induction l as [|x l IH]; simpl; [constructor|].
  now apply insert_by_sorted.
Qed.

(** In a list sorted by [le], an element strictly below another one comes
    first. *)
Lemma sorted_before (l : list A) (x y : A) :
  StronglySorted (fun a b => le a b = true) l ->
  In x l -> In y l -> le y x = false ->
  before x y l.
Proof.
  intros Hs Hx Hy Hlt. unfold before.
  induction Hs as [|z l Hs IH Hz].
  - contradiction.
  - destruct Hx as [->|Hx].
    + destruct Hy as [->|Hy].
      * destruct (le_total y y); congruence.
      * apply in_split in Hy as (l2 & l3 & ->). now exists [], l2, l3.
    + destruct Hy as [->|Hy].
      * rewrite Forall_forall in Hz. specialize (Hz _ Hx). congruence.
      * destruct (IH Hx Hy) as (l1 & l2 & l3 & ->). now exists (z :: l1), l2, l3.
Qed.

End OrderBy.

Lemma StronglySorted_impl (A : Type) (R R' : A -> A -> Prop) (l : list A) :
  (forall x y, R x y -> R' x y) -> StronglySorted R l -> StronglySorted R' l.
Proof.
  intros HR. induction 1 as [|x l _ IH Hx]; constructor; [assumption|].
  eapply Forall_impl; [|exact Hx]. auto.
Qed.

Lemma oldest_first_total x y :
  Pg.ChatMessage.oldest_first x y = true \/ Pg.ChatMessage.oldest_first y x = true.
Proof. unfold Pg.ChatMessage.oldest_first. rewrite !Z.leb_le. lia. Qed.

Lemma oldest_first_trans x y z :
  Pg.ChatMessage.oldest_first x y = true -> Pg.ChatMessage.oldest_first y z = true ->
  Pg.ChatMessage.oldest_first x z = true.
Proof. unfold Pg.ChatMessage.oldest_first, timestamptz. rewrite !Z.leb_le. lia. Qed.

Lemma newest_first_total x y :
  Pg.ChatSession.newest_first x y = true \/ Pg.ChatSession.newest_first y x = true.
Proof. unfold Pg.ChatSession.newest_first. rewrite !Z.leb_le. lia. Qed.

Lemma newest_first_trans x y z :
  Pg.ChatSession.newest_first x y = true -> Pg.ChatSession.newest_first y z = true ->
  Pg.ChatSession.newest_first x z = true.
Proof. unfold Pg.ChatSession.newest_first, timestamptz. rewrite !Z.leb_le. lia. Qed.

(* ----------------------------------------------------------------- *)
(** ** Statements on the tables *)

Lemma insert_message_inv uid g sid role content db row db' :
  Pg.insert_message uid g sid role content db = Normal (row, db') ->
  Pg.own_session uid sid db = true
  /\ row = {| Pg.ChatMessage.id := Pg.gen_random_uuid g;
              Pg.ChatMessage.session_id := sid;
              Pg.ChatMessage.role := role;
              Pg.ChatMessage.content := content;
              Pg.ChatMessage.created_at := Pg.now g |}
  /\ Pg.documents db' = Pg.documents db
  /\ Pg.chat_sessions db' = Pg.chat_sessions db
  /\ Pg.chat_messages db' = Pg.chat_messages db ++ [row].
Proof.
  unfold Pg.insert_message.
  destruct (Pg.own_session uid sid db); simpl; [|discriminate].
  destruct (existsb _ _); [discriminate|].
  intros H. injection H as <- <-. auto.
Qed.

Lemma insert_session_inv uid g user_id document_id db row db' :
  Pg.insert_session uid g user_id document_id db = Normal (row, db') ->
  row = {| Pg.ChatSession.id := Pg.gen_random_uuid g;
           Pg.ChatSession.user_id := user_id;
           Pg.ChatSession.document_id := document_id;
           Pg.ChatSession.created_at := Pg.now g;
           Pg.ChatSession.updated_at := Pg.now g |}
  /\ Pg.documents db' = Pg.documents db
  /\ Pg.chat_sessions db' = Pg.chat_sessions db ++ [row]
  /\ Pg.chat_messages db' = Pg.chat_messages db.
Proof.
  unfold Pg.insert_session.
  destruct (is_uid uid user_id); simpl; [|discriminate].
  destruct (existsb _ (Pg.chat_sessions db)); [discriminate|].
  destruct (existsb _ (Pg.documents db)); simpl; [|discriminate].
  intros H. injection H as <- <-. auto.
Qed.

Lemma insert_session_accepts (u doc : uuid) (g : Pg.Generated) (db : Pg.DB) :
  (forall s, In s (Pg.chat_sessions db) -> Pg.ChatSession.id s <> Pg.gen_random_uuid g) ->
  (exists d, In d (Pg.documents db) /\ Pg.Document.id d = doc) ->
  exists row db', Pg.insert_session (Some u) g u doc db = Normal (row, db').
Proof.
  intros Hfresh (d & Hd & Hid). unfold Pg.insert_session. cbn.
  rewrite N.eqb_refl. cbn.
  destruct (existsb _ (Pg.chat_sessions db)) eqn:Hpk.
  { apply existsb_exists in Hpk as (s & Hs & Heq). apply N.eqb_eq in Heq.
    now destruct (Hfresh s Hs). }
  destruct (existsb _ (Pg.documents db)) eqn:Hfk; cbn; [eauto|].
  assert (existsb (fun d => N.eqb (Pg.Document.id d) doc) (Pg.documents db) = true);
    [|congruence].
  apply existsb_exists. exists d. split; [assumption|now apply N.eqb_eq].
Qed.

Lemma insert_document_inv uid g user_id title content file_type file_size db db' :
  Pg.insert_document uid g user_id title content file_type file_size db = Normal db' ->
  (forall d, In d (Pg.documents db) -> Pg.Document.id d <> Pg.gen_random_uuid g)
  /\ Pg.documents db'
     = Pg.documents db ++ [ {| Pg.Document.id := Pg.gen_random_uuid g;
                               Pg.Document.user_id := user_id;
                               Pg.Document.title := title;
                               Pg.Document.content := content;
                               Pg.Document.file_type := file_type;
                               Pg.Document.file_size := file_size;
                               Pg.Document.created_at := Pg.now g;
                               Pg.Document.updated_at := Pg.now g |} ]
  /\ Pg.chat_sessions db' = Pg.chat_sessions db
  /\ Pg.chat_messages db' = Pg.chat_messages db.
Proof.
  unfold Pg.insert_document.
  destruct (is_uid uid user_id); simpl; [|discriminate].
  destruct (existsb _ (Pg.documents db)) eqn:Hpk; [discriminate|].
  intros H. injection H as <-. simpl.
  repeat split; auto.
  intros d Hd Heq.
  assert (existsb (fun d => N.eqb (Pg.Document.id d) (Pg.gen_random_uuid g))
                  (Pg.documents db) = true); [|congruence].
  apply existsb_exists. exists d. split; [assumption|now apply N.eqb_eq].
Qed.

Lemma insert_document_accepts user_id g title content file_type file_size db :
  (forall d, In d (Pg.documents db) -> Pg.Document.id d <> Pg.gen_random_uuid g) ->
  exists db', Pg.insert_document (Some user_id) g user_id title content file_type
                file_size db = Normal db'.
Proof.
  intros Hfresh. unfold Pg.insert_document. simpl. rewrite N.eqb_refl. simpl.
  destruct (existsb _ (Pg.documents db)) eqn:Hpk; [|eauto].
  apply existsb_exists in Hpk as (d & Hd & Heq). apply N.eqb_eq in Heq.
  now destruct (Hfresh d Hd).
Qed.

Lemma own_session_sessions uid sid db db' :
  Pg.chat_sessions db' = Pg.chat_sessions db ->
  Pg.own_session uid sid db' = Pg.own_session uid sid db.
Proof. unfold Pg.own_session. now intros ->. Qed.

Lemma own_session_exists uid sid db :
  Pg.own_session uid sid db = true ->
  exists s, In s (Pg.chat_sessions db) /\ Pg.ChatSession.id s = sid
            /\ uid = Some (Pg.ChatSession.user_id s).
Proof.
  unfold Pg.own_session. intros H.
  apply existsb_exists in H as (s & Hs & H).
  apply andb_prop in H as [Hid Huid]. apply N.eqb_eq in Hid.
  exists s. repeat split; auto.
  destruct uid as [v|]; [|discriminate]. simpl in Huid.
  apply N.eqb_eq in Huid. now subst.
Qed.

Lemma cascaded_session_iff uid id db s :
  Pg.cascaded_session uid id db s = true <->
  Pg.ChatSession.document_id s = id
  /\ exists d, In d (Pg.documents db) /\ Pg.Document.id d = id
               /\ uid = Some (Pg.Document.user_id d).
Proof.
  unfold Pg.cascaded_session, Pg.deleted_document. rewrite existsb_exists. split.
  - intros (d & Hd & H). apply andb_prop in H as [H Href].
    apply andb_prop in H as [Hid Huid].
    apply N.eqb_eq in Hid, Href. split; [congruence|].
    exists d. repeat split; auto.
    destruct uid as [v|]; [|discriminate]. apply N.eqb_eq in Huid. now subst.
  - intros (Href & d & Hd & Hid & ->). exists d. split; [assumption|].
    cbn. rewrite Hid, Href, !N.eqb_refl. reflexivity.
Qed.

Lemma cascaded_message_iff uid id db m :
  Pg.cascaded_message uid id db m = true <->
  exists s, In s (Pg.chat_sessions db)
            /\ Pg.ChatSession.id s = Pg.ChatMessage.session_id m
            /\ Pg.cascaded_session uid id db s = true.
Proof.
  unfold Pg.cascaded_message. rewrite existsb_exists. split.
  - intros (s & Hs & H). apply andb_prop in H as [Hc Hid].
    apply N.eqb_eq in Hid. eauto.
  - intros (s & Hs & Hid & Hc). exists s. split; [assumption|].
    rewrite Hc, Hid, N.eqb_refl. reflexivity.
Qed.

Lemma select_messages_sorted uid sid db :
  StronglySorted created_le (Pg.select_messages uid sid db).
Proof.
  apply StronglySorted_impl
    with (R := fun x y => Pg.ChatMessage.oldest_first x y = true).
  - intros x y. apply Z.leb_le.
  - apply order_by_sorted; [exact oldest_first_total|exact oldest_first_trans].
Qed.

Lemma select_messages_In uid sid db m :
  In m (Pg.select_messages uid sid db) <->
  In m (Pg.chat_messages db)
  /\ Pg.ChatMessage.session_id m = sid
  /\ Pg.own_session uid sid db = true.
Proof.
  unfold Pg.select_messages. rewrite order_by_In, filter_In, andb_true_iff, N.eqb_eq.
  split; intros (Hm & Hs & Ho); subst; auto.
Qed.

Lemma select_messages_before uid sid db m1 m2 :
  In m1 (Pg.chat_messages db) -> In m2 (Pg.chat_messages db) ->
  Pg.ChatMessage.session_id m1 = sid -> Pg.ChatMessage.session_id m2 = sid ->
  Pg.own_session uid sid db = true ->
  (Pg.ChatMessage.created_at m1 < Pg.ChatMessage.created_at m2)%Z ->
  before m1 m2 (Pg.select_messages uid sid db).
Proof.
  intros H1 H2 Hs1 Hs2 Hown Hlt.
  apply sorted_before with (le := Pg.ChatMessage.oldest_first).
  - exact oldest_first_total.
  - apply order_by_sorted; [exact oldest_first_total|exact oldest_first_trans].
  - now apply select_messages_In.
  - now apply select_messages_In.
  - apply Z.leb_gt. exact Hlt.
Qed.

(** What the session query answers for the signed-in user: nothing when the
    pair has no session, otherwise the key of one of its sessions that none
    of its sessions is newer than. *)
Lemma select_latest_session_spec (u doc : uuid) (db : Pg.DB) :
  match Pg.select_latest_session (Some u) doc u db with
  | [] => forall s, In s (Pg.chat_sessions db) -> ~ session_of u doc s
  | sid :: rest =>
      rest = []
      /\ exists s, In s (Pg.chat_sessions db) /\ session_of u doc s
                   /\ Pg.ChatSession.id s = sid
                   /\ forall s', In s' (Pg.chat_sessions db) -> session_of u doc s' ->
                        (Pg.ChatSession.created_at s' <= Pg.ChatSession.created_at s)%Z
  end.
Proof.
  unfold Pg.select_latest_session.
  set (matching := filter _ (Pg.chat_sessions db)).
  assert (Hmatching : forall s, In s matching <->
                                In s (Pg.chat_sessions db) /\ session_of u doc s).
  { intros s. unfold matching, session_of. rewrite filter_In. cbn.
    rewrite !andb_true_iff, !N.eqb_eq. intuition congruence. }
  pose proof (@order_by_sorted _ Pg.ChatSession.newest_first
                newest_first_total newest_first_trans matching) as Hsorted.
  pose proof (order_by_In Pg.ChatSession.newest_first) as Hin.
  destruct (order_by Pg.ChatSession.newest_first matching) as [|s0 sorted] eqn:Hsort;
    cbn.
  - apply order_by_nil in Hsort. intros s Hs Hof.
    assert (In s matching) by (apply Hmatching; auto).
    rewrite Hsort in *. contradiction.
  - split; [reflexivity|]. exists s0.
    assert (Hs0 : In s0 matching).
    { apply (Hin s0 matching). rewrite Hsort. now left. }
    apply Hmatching in Hs0 as [Hs0 Hof]. repeat split; try assumption; try apply Hof.
    intros s' Hs' Hof'.
    assert (Hs'm : In s' (s0 :: sorted)).
    { rewrite <- Hsort. apply Hin. apply Hmatching. auto. }
    destruct Hs'm as [<-|Hs'm]; [lia|].
    inversion Hsorted as [|? ? _ Hall]; subst.
    rewrite Forall_forall in Hall. specialize (Hall _ Hs'm).
    unfold Pg.ChatSession.newest_first in Hall. now apply Z.leb_le.
Qed.

(* ----------------------------------------------------------------- *)
(** ** Frames: what each handler does to the tables *)

Lemma run_bind_db (A B : Type) (c : M A) (k : A -> M B) (a : App.t) :
  (forall x a1, App.db (snd (k x a1)) = App.db a1) ->
  App.db (run (bind c k) a) = App.db (run c a).
Proof.
  intros Hk. unfold run, bind. destruct (c a) as [[x|e] a1]; cbn; auto.
Qed.

Lemma loadMessages_db (f : Fetch) (sessId : uuid) (a : App.t) :
  App.db (snd (loadMessages f sessId a)) = App.db a.
Proof. unfold loadMessages. handler. destruct f; reflexivity. Qed.

Lemma loadMessages_delivered (sessId : uuid) (a : App.t) :
  App.messages (run (loadMessages Delivered sessId) a)
  = Pg.select_messages (App.user a) sessId (App.db a).
Proof. reflexivity. Qed.

Lemma loadDocuments_db (f : Fetch) (a : App.t) :
  App.db (snd (loadDocuments f a)) = App.db a.
Proof. unfold loadDocuments. handler. destruct f; reflexivity. Qed.

Lemma syncSelectedDocContent_db (a : App.t) :
  App.db (snd (syncSelectedDocContent a)) = App.db a.
Proof.
  unfold syncSelectedDocContent. handler. cbn.
  destruct (App.selectedDocId a); cbn; [|reflexivity].
  destruct (find _ _); reflexivity.
Qed.

(** [handleSend] touches [chat_messages] only, appends to it only, and every
    row it appends belongs to the active session, which the signed-in user
    owns. *)
Lemma handleSend_tables (a : App.t) (dc : Js.str) (w : SendAnswers) :
  let a' := run (handleSend dc w) a in
  Pg.documents (App.db a') = Pg.documents (App.db a)
  /\ Pg.chat_sessions (App.db a') = Pg.chat_sessions (App.db a)
  /\ exists new,
      Pg.chat_messages (App.db a') = Pg.chat_messages (App.db a) ++ new
      /\ forall m, In m new ->
           App.sessionId a = Some (Pg.ChatMessage.session_id m)
           /\ Pg.own_session (App.user a) (Pg.ChatMessage.session_id m) (App.db a) = true.
Proof.
  cbv zeta. unfold handleSend. handler. cbn.
  destruct (send_refused _ _ _); cbn; [unchanged|].
  destruct (App.sessionId a) as [sid|] eqn:Hsid; cbn; [|unchanged].
  destruct (on_user_insert w); cbn; [|unchanged].
  destruct (Pg.insert_message _ _ _ _ _ _) as [[row1 db1]|e1] eqn:H1; cbn;
    [|unchanged].
  apply insert_message_inv in H1 as (Hown & Hrow1 & Hd1 & Hs1 & Hm1).
  assert (Hin1 : forall m, In m [row1] ->
            Some sid = Some (Pg.ChatMessage.session_id m)
            /\ Pg.own_session (App.user a) (Pg.ChatMessage.session_id m) (App.db a) = true).
  { intros m [<-|[]]. rewrite Hrow1. cbn. auto. }
  destruct (answer w); cbn; [|repeat split; auto; exists [row1]; auto].
  destruct (on_assistant_insert w); cbn; [|repeat split; auto; exists [row1]; auto].
  destruct (Pg.insert_message _ _ _ _ _ db1) as [[row2 db2]|e2] eqn:H2; cbn;
    [|repeat split; auto; exists [row1]; auto].
  apply insert_message_inv in H2 as (Hown2 & Hrow2 & Hd2 & Hs2 & Hm2).
  rewrite Hd2, Hs2, Hm2, Hd1, Hs1, Hm1. repeat split; auto.
  exists [row1; row2]. rewrite <- app_assoc. split; [reflexivity|].
  intros m [<-|Hm]; [apply Hin1; now left|].
  destruct Hm as [<-|[]]. rewrite Hrow2. cbn. split; [reflexivity|].
  rewrite <- Hown2. symmetry. now apply own_session_sessions.
Qed.

Ltac session_insert_cases w :=
  destruct (on_session_insert w); cbn; [|auto];
  let row := fresh "row" in
  let db1 := fresh "db" in
  let Hins := fresh "Hins" in
  destruct (Pg.insert_session _ _ _ _ _) as [[row db1]|?] eqn:Hins; cbn; [|auto];
  let Hrow := fresh "Hrow" in
  let Hd := fresh "Hd" in
  let Hs := fresh "Hs" in
  let Hm := fresh "Hm" in
  apply insert_session_inv in Hins as (Hrow & Hd & Hs & Hm);
  rewrite Hd, Hs, Hm; repeat split; auto;
  right; exists row; rewrite Hrow; cbn; auto.

(** [loadOrCreateSession] touches [chat_sessions] only: it appends at most
    one row, for the signed-in user and the given document, and makes it the
    active session. *)
Lemma loadOrCreateSession_tables (documentId : option uuid) (w : SessionAnswers)
      (a : App.t) :
  let a' := run (loadOrCreateSession documentId w) a in
  Pg.documents (App.db a') = Pg.documents (App.db a)
  /\ Pg.chat_messages (App.db a') = Pg.chat_messages (App.db a)
  /\ (Pg.chat_sessions (App.db a') = Pg.chat_sessions (App.db a)
      \/ exists row,
          Pg.chat_sessions (App.db a') = Pg.chat_sessions (App.db a) ++ [row]
          /\ App.user a = Some (Pg.ChatSession.user_id row)
          /\ documentId = Some (Pg.ChatSession.document_id row)
          /\ App.sessionId a' = Some (Pg.ChatSession.id row)).
Proof.
  cbv zeta. unfold loadOrCreateSession.
  destruct documentId as [documentId|]; [|cbn; auto].
  handler. cbn.
  destruct (App.user a) as [u|] eqn:Hu; cbn; [|auto].
  destruct (on_session_select w); cbn.
  - destruct (Pg.select_latest_session _ _ _ _) as [|s0 rest]; cbn.
    + rewrite Hu. session_insert_cases w.
    + unfold loadMessages. handler. destruct (on_messages_select w); cbn; auto.
  - rewrite Hu. session_insert_cases w.
Qed.

Ltac document_insert_cases a w :=
  unfold loadDocuments; handler; cbn;
  destruct (App.user a) as [?|]; cbn; [|auto];
  destruct (on_document_insert w); cbn; [|auto];
  let Hins := fresh "Hins" in
  destruct (Pg.insert_document _ _ _ _ _ _ _ _) as [?|?] eqn:Hins; cbn; [|auto];
  let Hfresh := fresh "Hfresh" in
  let Hd := fresh "Hd" in
  let Hs := fresh "Hs" in
  let Hm := fresh "Hm" in
  apply insert_document_inv in Hins as (Hfresh & Hd & Hs & Hm);
  destruct (on_upload_reload w); cbn; rewrite Hd, Hs, Hm; repeat split; auto;
  right; eexists; (split; [reflexivity|exact Hfresh]).

(** [handleFileUpload] touches [documents] only: it appends at most one
    row, under a key no stored document has. *)
Lemma handleFileUpload_tables (file : option File.t) (w : UploadAnswers) (a : App.t) :
  let a' := run (handleFileUpload file w) a in
  Pg.chat_sessions (App.db a') = Pg.chat_sessions (App.db a)
  /\ Pg.chat_messages (App.db a') = Pg.chat_messages (App.db a)
  /\ (Pg.documents (App.db a') = Pg.documents (App.db a)
      \/ exists d,
          Pg.documents (App.db a') = Pg.documents (App.db a) ++ [d]
          /\ forall d0, In d0 (Pg.documents (App.db a)) ->
                        Pg.Document.id d0 <> Pg.Document.id d).
Proof.
  cbv zeta. unfold handleFileUpload.
  destruct file as [file|]; [|cbn; auto].
  handler. cbn.
  destruct (is_pdf file);
    [destruct (extractTextFromPDF (File.pdf file)) as [text|e]
    |destruct (File.text file) as [text|e]]; cbn; auto;
    document_insert_cases a w.
Qed.

(** [handleDelete] runs the delete statement when the request is delivered
    and nothing otherwise. *)
Lemma handleDelete_db (id : uuid) (w : DeleteAnswers) (a : App.t) :
  App.db (run (handleDelete id w) a)
  = match on_document_delete w with
    | Delivered => Pg.delete_document (App.user a) id (App.db a)
    | Failed _ => App.db a
    end.
Proof.
  unfold handleDelete, loadDocuments. handler. cbn.
  destruct (on_document_delete w); cbn; [|reflexivity].
  destruct (on_delete_reload w); reflexivity.
Qed.

(** The tables after one action, by the handler that touches them. *)
Lemma step_db (act : Action) (a : App.t) :
  App.db (step act a)
  = match act with
    | SelectDoc id w =>
        if same_selection (App.selectedDocId a) id then App.db a
        else App.db (run (loadOrCreateSession (Some id) w)
                         (with_selectedDocId (Some id) a))
    | Send w => App.db (run (handleSend (App.selectedDocContent a) w) a)
    | Upload file w => App.db (run (handleFileUpload file w) a)
    | Delete id w => App.db (run (handleDelete id w) a)
    | Mount _ | TypeInput _ | SignOut => App.db a
    end.
Proof.
  unfold step. destruct act as [f|id w|value|w|file w|id w|]; cbn [perform].
  - rewrite run_bind_db by (intros; apply syncSelectedDocContent_db).
    apply loadDocuments_db.
  - unfold run at 1. unfold bind at 1. cbn.
    destruct (same_selection (App.selectedDocId a) id); [reflexivity|].
    unfold bind at 1. cbn.
    apply (run_bind_db (loadOrCreateSession (Some id) w)
                       (fun _ => syncSelectedDocContent)).
    intros; apply syncSelectedDocContent_db.
  - reflexivity.
  - reflexivity.
  - apply run_bind_db. intros; apply syncSelectedDocContent_db.
  - apply run_bind_db. intros; apply syncSelectedDocContent_db.
  - reflexivity.
Qed.

(* ----------------------------------------------------------------- *)
(** ** Sessions *)

(** When the session query is answered and the pair has a session, the
    newest one becomes the active session and none is created. *)
Lemma loadOrCreateSession_reuses (doc u : uuid) (w : SessionAnswers) (a : App.t)
      (s : Pg.ChatSession.t) :
  App.user a = Some u ->
  on_session_select w = Delivered ->
  In s (Pg.chat_sessions (App.db a)) -> session_of u doc s ->
  let a' := run (loadOrCreateSession (Some doc) w) a in
  App.db a' = App.db a
  /\ exists s0, In s0 (Pg.chat_sessions (App.db a)) /\ session_of u doc s0
                /\ App.sessionId a' = Some (Pg.ChatSession.id s0)
                /\ forall s', In s' (Pg.chat_sessions (App.db a)) -> session_of u doc s' ->
                     (Pg.ChatSession.created_at s' <= Pg.ChatSession.created_at s0)%Z.
Proof.
  intros Hu Hsel Hs Hof. cbv zeta.
  unfold loadOrCreateSession, loadMessages. handler. cbn.
  rewrite Hu. cbn. rewrite Hsel. cbn. rewrite Hu.
  pose proof (select_latest_session_spec u doc (App.db a)) as Hspec.
  destruct (Pg.select_latest_session _ _ _ _) as [|sid rest]; cbn.
  - now destruct (Hspec s Hs).
  - destruct Hspec as (_ & s0 & Hs0 & Hof0 & Hid & Hmax).
    destruct (on_messages_select w); cbn; (split; [reflexivity|]);
      exists s0; rewrite Hid; auto.
Qed.

(** When the pair has no session and the insert is accepted, exactly one
    session is created, for this pair, and becomes the active one; no message
    is stored by this. *)
Lemma loadOrCreateSession_creates (doc u : uuid) (w : SessionAnswers) (a : App.t) :
  App.user a = Some u ->
  (forall s, In s (Pg.chat_sessions (App.db a)) -> ~ session_of u doc s) ->
  on_session_insert w = Delivered ->
  (forall s, In s (Pg.chat_sessions (App.db a)) ->
             Pg.ChatSession.id s <> Pg.gen_random_uuid (session_defaults w)) ->
  (exists d, In d (Pg.documents (App.db a)) /\ Pg.Document.id d = doc) ->
  let a' := run (loadOrCreateSession (Some doc) w) a in
  exists row,
    Pg.chat_sessions (App.db a') = Pg.chat_sessions (App.db a) ++ [row]
    /\ session_of u doc row
    /\ App.sessionId a' = Some (Pg.ChatSession.id row)
    /\ Pg.chat_messages (App.db a') = Pg.chat_messages (App.db a).
Proof.
  intros Hu Hnone Hins Hfresh Hdoc. cbv zeta.
  destruct (insert_session_accepts u (session_defaults w) (App.db a) Hfresh Hdoc)
    as (row & db' & Hrow).
  pose proof Hrow as Hinv. apply insert_session_inv in Hinv.
  destruct Hinv as (Hrow_eq & _ & Hs & Hm).
  exists row.
  unfold loadOrCreateSession. handler. cbn. rewrite Hu. cbn.
  pose proof (select_latest_session_spec u doc (App.db a)) as Hspec.
  destruct (on_session_select w); cbn.
  - rewrite Hu. destruct (Pg.select_latest_session _ _ _ _) as [|sid rest]; cbn.
    + rewrite Hins. cbn. rewrite Hu, Hrow. cbn. rewrite Hs, Hm, Hrow_eq.
      unfold session_of. cbn. auto.
    + destruct Hspec as (_ & s0 & Hs0 & Hof0 & _). now destruct (Hnone s0 Hs0).
  - rewrite Hins. cbn. rewrite Hu, Hrow. cbn. rewrite Hs, Hm, Hrow_eq.
    unfold session_of. cbn. auto.
Qed.

Lemma sessions_of_nil (u doc : uuid) (db : Pg.DB) :
  (forall s, In s (Pg.chat_sessions db) -> ~ session_of u doc s) ->
  sessions_of u doc db = [].
Proof.
  intros Hnone. unfold sessions_of.
  destruct (filter _ _) as [|s l] eqn:Hf; [reflexivity|].
  assert (Hs : In s (s :: l)) by now left.
  rewrite <- Hf in Hs. apply filter_In in Hs as [Hs Hp].
  apply andb_prop in Hp as [Hu Hd]. apply N.eqb_eq in Hu, Hd.
  now destruct (Hnone s Hs).
Qed.

Lemma filter_filter_length (A : Type) (p q : A -> bool) (l : list A) :
  List.length (filter p (filter q l)) <= List.length (filter p l).
Proof.
  induction l as [|x l IH]; simpl; [lia|].
  destruct (q x), (p x) eqn:Hp; simpl; rewrite ?Hp; simpl; lia.
Qed.

(** With its query answered, [loadOrCreateSession] creates a session only
    for a pair that has none. *)
Lemma loadOrCreateSession_answered (documentId : option uuid) (w : SessionAnswers)
      (a : App.t) :
  on_session_select w = Delivered ->
  let a' := run (loadOrCreateSession documentId w) a in
  Pg.chat_sessions (App.db a') = Pg.chat_sessions (App.db a)
  \/ exists row,
      Pg.chat_sessions (App.db a') = Pg.chat_sessions (App.db a) ++ [row]
      /\ sessions_of (Pg.ChatSession.user_id row) (Pg.ChatSession.document_id row)
                     (App.db a) = [].
Proof.
  intros Hsel. cbv zeta. unfold loadOrCreateSession.
  destruct documentId as [doc|]; [|cbn; auto].
  handler. cbn.
  destruct (App.user a) as [u|] eqn:Hu; cbn; [|auto].
  rewrite Hsel. cbn. rewrite Hu.
  pose proof (select_latest_session_spec u doc (App.db a)) as Hspec.
  destruct (Pg.select_latest_session _ _ _ _) as [|s0 rest]; cbn.
  - destruct (on_session_insert w); cbn; [|auto].
    destruct (Pg.insert_session _ _ _ _ _) as [[row db1]|?] eqn:Hins; cbn; [|auto].
    apply insert_session_inv in Hins as (Hrow & _ & Hs & _).
    right. exists row. split; [exact Hs|].
    rewrite Hrow. cbn. now apply sessions_of_nil.
  - unfold loadMessages. handler. destruct (on_messages_select w); cbn; auto.
Qed.

Lemma step_one_session_per_pair (act : Action) (a : App.t) :
  query_answered act ->
  one_session_per_pair (App.db a) ->
  one_session_per_pair (App.db (step act a)).
Proof.
  intros Hans Hinv. rewrite step_db.
  destruct act as [f|id w|value|w|file w|id w|]; try exact Hinv.
  - destruct (same_selection _ _); [exact Hinv|].
    destruct (loadOrCreateSession_answered (Some id) w
                (with_selectedDocId (Some id) a) Hans) as [Hs|(row & Hs & Hnone)];
      intros u doc; unfold sessions_of; rewrite Hs.
    + apply Hinv.
    + cbn in *. rewrite filter_app, length_app. cbn.
      destruct (N.eqb (Pg.ChatSession.user_id row) u
                && N.eqb (Pg.ChatSession.document_id row) doc) eqn:Hrow; cbn.
      * apply andb_prop in Hrow as [Hu Hd]. apply N.eqb_eq in Hu, Hd. subst.
        unfold sessions_of in Hnone. rewrite Hnone. cbn. lia.
      * specialize (Hinv u doc). unfold sessions_of in Hinv. lia.
  - destruct (handleSend_tables a (App.selectedDocContent a) w) as (_ & Hs & _).
    intros u doc. unfold sessions_of. rewrite Hs. apply Hinv.
  - destruct (handleFileUpload_tables file w a) as (Hs & _).
    intros u doc. unfold sessions_of. rewrite Hs. apply Hinv.
  - rewrite handleDelete_db. destruct (on_document_delete w); [|exact Hinv].
    intros u doc. unfold sessions_of, Pg.delete_document. cbn.
    etransitivity; [apply filter_filter_length|apply Hinv].
Qed.

(** As long as every session query is answered, no sequence of actions
    that run to completion one after another gives a pair a second
    session. *)
Lemma steps_one_session_per_pair (acts : list Action) :
  forall a,
    Forall query_answered acts ->
    one_session_per_pair (App.db a) ->
    one_session_per_pair (App.db (steps acts a)).
Proof.
  induction acts as [|act acts IH]; intros a Hans Hinv; [exact Hinv|].
  inversion Hans as [|? ? Hact Hrest]; subst.
  apply IH; [assumption|]. now apply step_one_session_per_pair.
Qed.

(** C1, as stated, fails: a send with a question typed, a document selected
    and no active session creates no session, stores no message and does not
    call the edge function. *)
Lemma handleSend_without_session_creates_none :
  let a := Sample.fresh in
  let a' := run (handleSend (App.selectedDocContent a) Sample.send_ok) a in
  App.sessionId a = None
  /\ Js.trim (App.input a) = Js.lit "hi"
  /\ ~ (exists s, Pg.chat_sessions (App.db a') = Pg.chat_sessions (App.db a) ++ [s])
  /\ Pg.chat_messages (App.db a') = []
  /\ App.invocations a' = [].
Proof.
  cbv zeta. repeat split; try reflexivity.
  intros [s Hs]. vm_compute in Hs. discriminate Hs.
Qed.

(** C1, amended. [handleSend] never creates a session: with no active
    session it does nothing.  The session is found or created beforehand, by
    [loadOrCreateSession] when the document is selected.  When the selection
    succeeds, that is the session query is answered and the signed-in user
    has a session on the document, or the pair has none and the insert is
    accepted, a stored session of the (user, document) pair is the active
    one: an existing one, or the single new row the selection adds when the
    pair had none; the selection stores no message.  A send that follows,
    on the tables and the active session the selection left, creates no
    session, and every message row it stores is in that session of the
    pair. *)
Theorem send_stores_into_session_of_selected_pair :
  (forall (a : App.t) (dc : Js.str) (w : SendAnswers),
      App.sessionId a = None -> run (handleSend dc w) a = a)
  /\ (forall (a b : App.t) (doc u : uuid) (w : SessionAnswers)
             (dc : Js.str) (ws : SendAnswers),
         App.user a = Some u ->
         (on_session_select w = Delivered
          /\ exists s, In s (Pg.chat_sessions (App.db a)) /\ session_of u doc s)
         \/ ((forall s, In s (Pg.chat_sessions (App.db a)) -> ~ session_of u doc s)
             /\ on_session_insert w = Delivered
             /\ (forall s, In s (Pg.chat_sessions (App.db a)) ->
                           Pg.ChatSession.id s <> Pg.gen_random_uuid (session_defaults w))
             /\ exists d, In d (Pg.documents (App.db a)) /\ Pg.Document.id d = doc) ->
         let a1 := run (loadOrCreateSession (Some doc) w) a in
         App.db b = App.db a1 ->
         App.sessionId b = App.sessionId a1 ->
         let a2 := run (handleSend dc ws) b in
         exists s,
           In s (Pg.chat_sessions (App.db a1))
           /\ session_of u doc s
           /\ App.sessionId a1 = Some (Pg.ChatSession.id s)
           /\ Pg.chat_sessions (App.db a1)
              = Pg.chat_sessions (App.db a)
                ++ match sessions_of u doc (App.db a) with
                   | [] => [s]
                   | _ :: _ => []
                   end
           /\ Pg.chat_messages (App.db a1) = Pg.chat_messages (App.db a)
           /\ Pg.chat_sessions (App.db a2) = Pg.chat_sessions (App.db a1)
           /\ exists new,
               Pg.chat_messages (App.db a2) = Pg.chat_messages (App.db a1) ++ new
               /\ forall m, In m new ->
                    Pg.ChatMessage.session_id m = Pg.ChatSession.id s).
Proof.
  split.
  - intros a dc w Hnone. unfold handleSend. handler. cbn.
    rewrite Hnone. unfold send_refused.
    now destruct (negb (Js.truthy (Js.trim (App.input a)))).
  - intros a b doc u w dc ws Hu Hsel a1 Hdb Hsid a2.
    destruct (handleSend_tables b dc ws) as (_ & Hs & new & Hm & Hnew).
    fold a2 in Hs, Hm. rewrite Hdb in Hs, Hm.
    assert (Hsent : forall s, App.sessionId a1 = Some (Pg.ChatSession.id s) ->
              forall m, In m new -> Pg.ChatMessage.session_id m = Pg.ChatSession.id s).
    { intros s Hactive m Hin. destruct (Hnew m Hin) as [Hto _]. congruence. }
    destruct Hsel as [(Hans & s & Hin & Hof)|(Hnone & Hins & Hfresh & Hdoc)].
    + destruct (@loadOrCreateSession_reuses doc u w a s Hu Hans Hin Hof)
        as (Hsame & s0 & Hin0 & Hof0 & Hactive & _).
      fold a1 in Hsame, Hactive.
      exists s0. rewrite Hsame. repeat split; try apply Hof0; try assumption.
      * assert (Hs0 : In s0 (sessions_of u doc (App.db a))).
        { apply filter_In. split; [assumption|].
          destruct Hof0 as [-> ->]. now rewrite !N.eqb_refl. }
        destruct (sessions_of u doc (App.db a)); [destruct Hs0|].
        now rewrite app_nil_r.
      * now rewrite <- Hsame.
      * exists new. rewrite <- Hsame. split; [exact Hm|now apply Hsent].
    + destruct (@loadOrCreateSession_creates doc u w a Hu Hnone Hins Hfresh Hdoc)
        as (row & Hrows & Hof & Hactive & Hmsgs).
      fold a1 in Hrows, Hactive, Hmsgs.
      exists row. rewrite (@sessions_of_nil u doc (App.db a) Hnone).
      repeat split; try apply Hof; try assumption.
      * rewrite Hrows. apply in_or_app. right. now left.
      * exists new. split; [exact Hm|now apply Hsent].
Qed.

(** Selecting the notes creates session 11, the session of Alice on her
    notes; the question she then types and the reply are stored in it. *)
Lemma send_into_selected_pair_sample :
  let a := Sample.fresh in
  let a1 := run (loadOrCreateSession (Some 1%N) Sample.session_ok) a in
  let b := with_input (Js.lit "what is alpha?") a1 in
  let a2 := run (handleSend (Js.lit "alpha") Sample.send_ok) b in
  (exists s,
      In s (Pg.chat_sessions (App.db a1))
      /\ session_of Sample.alice 1%N s
      /\ App.sessionId a1 = Some (Pg.ChatSession.id s)
      /\ Pg.chat_sessions (App.db a1)
         = Pg.chat_sessions (App.db a)
           ++ match sessions_of Sample.alice 1%N (App.db a) with
              | [] => [s]
              | _ :: _ => []
              end
      /\ Pg.chat_messages (App.db a1) = Pg.chat_messages (App.db a)
      /\ Pg.chat_sessions (App.db a2) = Pg.chat_sessions (App.db a1)
      /\ exists new,
          Pg.chat_messages (App.db a2) = Pg.chat_messages (App.db a1) ++ new
          /\ forall m, In m new -> Pg.ChatMessage.session_id m = Pg.ChatSession.id s)
  /\ Pg.chat_sessions (App.db a2) = [Sample.session11]
  /\ List.map Pg.ChatMessage.session_id (Pg.chat_messages (App.db a2)) = [11%N; 11%N]
  /\ List.map Pg.ChatMessage.content (Pg.chat_messages (App.db a2))
     = [Js.lit "what is alpha?"; Js.lit "hello"].
Proof.
  cbv zeta. split; [|repeat split; reflexivity].
  apply (proj2 send_stores_into_session_of_selected_pair
           Sample.fresh
           (with_input (Js.lit "what is alpha?")
              (run (loadOrCreateSession (Some 1%N) Sample.session_ok) Sample.fresh))
           1%N Sample.alice Sample.session_ok (Js.lit "alpha") Sample.send_ok).
  - reflexivity.
  - right. split; [intros s []|]. split; [reflexivity|]. split; [intros s []|].
    exists Sample.notes. split; [now left|reflexivity].
  - reflexivity.
  - reflexivity.
Defined.

(** C5. The code departs from the claim when the session query fails: only
    [data] of its answer is read, so a failed query looks like a pair without
    a session.  Here Alice already has session 10 on her notes; the query
    fails, the insert is answered, and a second session for the same pair is
    created and made active instead of session 10 being reused. *)
Theorem loadOrCreateSession_failed_query_duplicates :
  let a := Sample.chatting in
  let a' := run (loadOrCreateSession (Some 1%N) Sample.session_select_fails) a in
  Pg.chat_sessions (App.db a) = [Sample.session10]
  /\ session_of Sample.alice 1%N Sample.session10
  /\ Pg.chat_sessions (App.db a') = [Sample.session10; Sample.session11]
  /\ session_of Sample.alice 1%N Sample.session11
  /\ App.sessionId a' = Some 11%N.
Proof.
  cbv zeta. unfold session_of. repeat split.
Qed.

(* ----------------------------------------------------------------- *)
(** ** The chat round trip *)

(** C9. [handleSend] does nothing when the trimmed input is empty, when no
    session is active, or when the document content is empty: the whole
    state, tables, message list and record of edge-function calls included,
    is as before. *)
Theorem handleSend_refused_is_noop (a : App.t) (dc : Js.str) (w : SendAnswers) :
  Js.trim (App.input a) = [] \/ App.sessionId a = None \/ dc = [] ->
  run (handleSend dc w) a = a.
Proof.
  intros H.
  assert (G : send_refused (App.input a) (App.sessionId a) dc = true).
  { unfold send_refused. destruct H as [H | [H | H]]; rewrite H; cbn;
      auto using orb_true_r.
    destruct (Js.truthy (Js.trim (App.input a))); reflexivity. }
  unfold handleSend. handler. cbn. now rewrite G.
Qed.

(** With a question typed and a session active, a send on a document
    without content changes nothing. *)
Lemma handleSend_refused_sample :
  let a' := run (handleSend [] Sample.send_ok) Sample.chatting in
  a' = Sample.chatting
  /\ Pg.chat_messages (App.db a') = []
  /\ App.invocations a' = []
  /\ App.messages a' = [].
Proof.
  cbv zeta.
  rewrite (handleSend_refused_is_noop Sample.chatting Sample.send_ok
             (or_intror (or_intror eq_refl))).
  repeat split.
Defined.

(** C2. When the user's message was saved and the call of the edge function
    fails, the tables are exactly as the insert of the user's message left
    them: that message is the one row added to [chat_messages], with role
    [user], and no assistant row is added.  The message list shows the saved
    message, the one call of the edge function is on record and one
    notification reports its error. *)
Theorem handleSend_failed_invoke_keeps_user_message
        (a : App.t) (dc : Js.str) (w : SendAnswers) (sid : uuid) (e : Error)
        (savedUserMsg : Pg.ChatMessage.t) (db' : Pg.DB) :
  send_refused (App.input a) (App.sessionId a) dc = false ->
  App.sessionId a = Some sid ->
  on_user_insert w = Delivered ->
  Pg.insert_message (App.user a) (user_defaults w) sid Pg.ChatMessage.user
                    (Js.trim (App.input a)) (App.db a) = Normal (savedUserMsg, db') ->
  answer w = Throw e ->
  let a' := run (handleSend dc w) a in
  App.db a' = db'
  /\ Pg.chat_messages (App.db a') = Pg.chat_messages (App.db a) ++ [savedUserMsg]
  /\ Pg.ChatMessage.role savedUserMsg = Pg.ChatMessage.user
  /\ Pg.ChatMessage.content savedUserMsg = Js.trim (App.input a)
  /\ App.messages a' = App.messages a ++ [savedUserMsg]
  /\ App.invocations a'
     = App.invocations a ++ [ {| message := Js.trim (App.input a);
                                 documentContent := dc;
                                 sessionId := sid |} ]
  /\ App.toasts a' = App.toasts a ++ [error_toast "Error" e].
Proof.
  intros Hguard Hsid Hfetch Hinsert Hanswer a'.
  pose proof Hinsert as Hinv. apply insert_message_inv in Hinv.
  destruct Hinv as (_ & Hrow & _ & _ & Hmsgs).
  subst a'. unfold handleSend. handler. cbn.
  rewrite Hguard, Hsid, Hfetch. cbn. rewrite Hinsert. cbn. rewrite Hanswer. cbn.
  rewrite Hmsgs. rewrite Hrow. cbn. auto 10.
Qed.

(** Alice's "hi" stays stored when the edge function fails, and nothing
    else is. *)
Lemma handleSend_failed_invoke_sample :
  let a' := run (handleSend (Js.lit "alpha") Sample.send_invoke_fails) Sample.chatting in
  List.map (fun m => (Pg.ChatMessage.role m, Pg.ChatMessage.content m))
           (Pg.chat_messages (App.db a'))
  = [(Pg.ChatMessage.user, Js.lit "hi")]
  /\ List.length (App.messages a') = 1.
Proof.
  cbv zeta.
  destruct (handleSend_failed_invoke_keeps_user_message
              Sample.chatting (Js.lit "alpha") Sample.send_invoke_fails
              eq_refl eq_refl eq_refl eq_refl eq_refl)
    as (_ & Hstored & _ & _ & Hshown & _ & _).
  rewrite Hstored, Hshown. split; reflexivity.
Defined.

(* ----------------------------------------------------------------- *)
(** ** Upload *)

(** C10. When the PDF extraction fails, when reading the file fails, or when
    nobody is signed in, [handleFileUpload] leaves the tables as they
    were. *)
Theorem handleFileUpload_failure_inserts_nothing
        (file : File.t) (w : UploadAnswers) (a : App.t) :
  (is_pdf file = true /\ exists e, extractTextFromPDF (File.pdf file) = Throw e)
  \/ (is_pdf file = false /\ exists e, File.text file = Throw e)
  \/ App.user a = None ->
  App.db (run (handleFileUpload (Some file) w) a) = App.db a.
Proof.
  intros H. unfold handleFileUpload. handler. cbn.
  destruct H as [[Hpdf [e He]] | [[Hpdf [e He]] | Huser]].
  - rewrite Hpdf, He. reflexivity.
  - rewrite Hpdf, He. reflexivity.
  - destruct (is_pdf file);
      [destruct (extractTextFromPDF _)|destruct (File.text file)];
      cbn; rewrite ?Huser; reflexivity.
Qed.

(** A PDF the library rejects is not stored. *)
Lemma handleFileUpload_failure_sample :
  Pg.documents (App.db (run (handleFileUpload (Some Sample.broken_pdf) Sample.upload_ok)
                            Sample.fresh))
  = [Sample.notes].
Proof.
  rewrite (handleFileUpload_failure_inserts_nothing Sample.broken_pdf Sample.upload_ok
             Sample.fresh
             (or_introl (conj eq_refl
                (ex_intro _ (Rejected (Js.lit "Invalid PDF structure.")) eq_refl)))).
  reflexivity.
Defined.

(** C4. For a file that is not a PDF and whose text was read, uploaded by a
    signed-in user, with the insert delivered under an unused key,
    [handleFileUpload] appends one document row whose content is the text
    read, as it is. *)
Theorem handleFileUpload_stores_text_exactly
        (file : File.t) (w : UploadAnswers) (a : App.t) (text : Js.str) (u : uuid) :
  is_pdf file = false ->
  File.text file = Normal text ->
  App.user a = Some u ->
  on_document_insert w = Delivered ->
  (forall d, In d (Pg.documents (App.db a)) ->
             Pg.Document.id d <> Pg.gen_random_uuid (document_defaults w)) ->
  exists d,
    Pg.documents (App.db (run (handleFileUpload (Some file) w) a))
    = Pg.documents (App.db a) ++ [d]
    /\ Pg.Document.content d = text
    /\ Pg.Document.title d = File.name file
    /\ Pg.Document.user_id d = u.
Proof.
  intros Hpdf Htext Huser Hfetch Hfresh.
  destruct (insert_document_accepts u (document_defaults w) (File.name file) text
              (File.type file) (File.size file) (App.db a) Hfresh) as [db' Hins].
  pose proof Hins as Hinv. apply insert_document_inv in Hinv.
  destruct Hinv as (_ & Hdocs & _).
  eexists. unfold handleFileUpload, loadDocuments. handler. cbn.
  rewrite Hpdf, Htext. cbn. rewrite Huser, Hfetch. cbn. rewrite Huser, Hins. cbn.
  destruct (on_upload_reload w); cbn; rewrite Hdocs; repeat split; reflexivity.
Qed.

(** The leading blank of " buy milk" is stored too. *)
Lemma handleFileUpload_text_sample :
  exists d,
    Pg.documents (App.db (run (handleFileUpload (Some Sample.todo_txt) Sample.upload_ok)
                              Sample.fresh))
    = [Sample.notes] ++ [d]
    /\ Pg.Document.content d = Js.lit " buy milk"
    /\ Pg.Document.title d = Js.lit "todo.txt"
    /\ Pg.Document.user_id d = Sample.alice.
Proof.
  apply (handleFileUpload_stores_text_exactly Sample.todo_txt Sample.upload_ok
           Sample.fresh (text := Js.lit " buy milk") (u := Sample.alice)).
  - reflexivity.
  - reflexivity.
  - reflexivity.
  - reflexivity.
  - intros d [<-|[]]. vm_compute. discriminate.
Defined.

(* ----------------------------------------------------------------- *)
(** ** Delete *)

(** C6. When the delete of one's own document is delivered, the document is
    gone, the sessions that remain are those on other documents, and the
    messages that remain are those of sessions on other documents: no session
    of the deleted document and no message of such a session is left, and
    nothing else is removed. *)
Theorem handleDelete_cascades
        (id : uuid) (w : DeleteAnswers) (a : App.t) (d : Pg.Document.t) :
  on_document_delete w = Delivered ->
  In d (Pg.documents (App.db a)) ->
  Pg.Document.id d = id ->
  App.user a = Some (Pg.Document.user_id d) ->
  let db := App.db a in
  let db' := App.db (run (handleDelete id w) a) in
  ~ In d (Pg.documents db')
  /\ (forall s, In s (Pg.chat_sessions db') <->
                In s (Pg.chat_sessions db) /\ Pg.ChatSession.document_id s <> id)
  /\ (forall m, In m (Pg.chat_messages db') <->
                In m (Pg.chat_messages db)
                /\ forall s, In s (Pg.chat_sessions db) ->
                             Pg.ChatSession.id s = Pg.ChatMessage.session_id m ->
                             Pg.ChatSession.document_id s <> id).
Proof.
  intros Hfetch Hd Hid Huser db db'. subst db db'.
  rewrite handleDelete_db, Hfetch. unfold Pg.delete_document. cbn.
  assert (Hcs : forall s, Pg.cascaded_session (App.user a) id (App.db a) s = true
                          <-> Pg.ChatSession.document_id s = id).
  { intros s. rewrite cascaded_session_iff. split; [tauto|]. eauto 6. }
  split; [|split].
  - rewrite filter_In. intros [_ H]. unfold Pg.deleted_document in H.
    rewrite Huser, Hid in H. cbn in H. now rewrite !N.eqb_refl in H.
  - intros s. rewrite filter_In, negb_true_iff, <- not_true_iff_false, Hcs.
    reflexivity.
  - intros m. rewrite filter_In, negb_true_iff, <- not_true_iff_false,
      cascaded_message_iff.
    split; intros [Hm H]; (split; [assumption|]).
    + intros s Hs Href Hdoc. apply H. exists s. rewrite Hcs. auto.
    + intros (s & Hs & Href & Hc). apply Hcs in Hc. now apply (H s).
Qed.

(** Deleting the notes removes session 10 and both of its messages. *)
Lemma handleDelete_sample :
  let db' := App.db (run (handleDelete 1%N Sample.delete_ok) Sample.chatted) in
  ~ In Sample.session10 (Pg.chat_sessions db')
  /\ ~ In Sample.question (Pg.chat_messages db')
  /\ ~ In Sample.reply (Pg.chat_messages db').
Proof.
  cbv zeta.
  destruct (@handleDelete_cascades 1%N Sample.delete_ok Sample.chatted Sample.notes
              eq_refl (or_introl eq_refl) eq_refl eq_refl)
    as (_ & Hsessions & Hmessages).
  split; [|split].
  - intros H. apply Hsessions in H as [_ H]. now apply H.
  - intros H. apply Hmessages in H as [_ H].
    now apply (H Sample.session10 (or_introl eq_refl)).
  - intros H. apply Hmessages in H as [_ H].
    now apply (H Sample.session10 (or_introl eq_refl)).
Defined.

(* ----------------------------------------------------------------- *)
(** ** Invariants of the transition system *)

(** C8. No action changes a stored document: after any action, a document
    row whose key was stored before is one of the rows stored before, so its
    content is what it was.  An upload only appends, a delete only removes
    whole rows, and every other action leaves [documents] as it was. *)
Theorem document_content_immutable (act : Action) (a : App.t) :
  let stored := Pg.documents (App.db a) in
  let stored' := Pg.documents (App.db (step act a)) in
  (forall d, In d stored' ->
             (exists d0, In d0 stored /\ Pg.Document.id d0 = Pg.Document.id d) ->
             In d stored)
  /\ match act with
     | Upload _ _ => exists new, stored' = stored ++ new
     | Delete id _ => exists kept, stored' = filter kept stored
     | Mount _ | SelectDoc _ _ | TypeInput _ | Send _ | SignOut => stored' = stored
     end.
Proof.
  cbv zeta. rewrite step_db.
  destruct act as [f|id w|value|w|file w|id w|].
  - auto.
  - destruct (same_selection _ _); [auto|].
    destruct (loadOrCreateSession_tables (Some id) w (with_selectedDocId (Some id) a))
      as (-> & _). cbn. auto.
  - auto.
  - destruct (handleSend_tables a (App.selectedDocContent a) w) as (-> & _). auto.
  - destruct (handleFileUpload_tables file w a) as (_ & _ & [-> | (d & -> & Hfresh)]).
    + split; [auto|]. exists []. now rewrite app_nil_r.
    + split; [|eauto].
      intros d' Hin (d0 & Hd0 & Heq). apply in_app_or in Hin as [Hin|[<-|[]]].
      * assumption.
      * now destruct (Hfresh d0 Hd0).
  - rewrite handleDelete_db. destruct (on_document_delete w).
    + unfold Pg.delete_document. cbn. split; [|eauto].
      intros d Hin _. now apply filter_In in Hin.
    + split; [auto|]. exists (fun _ => true). symmetry.
      apply forallb_filter_id. now apply forallb_forall.
  - auto.
Qed.

(** C7. Messages are append-only: every action but a delete leaves the
    stored messages in place and at most appends to them, and a delete
    removes messages by whole sessions only (whether a row goes depends on its
    session alone).  Messages are shown in creation order: what
    [loadMessages] loads is sorted by [created_at], and of two stored
    messages of the session, the one created earlier comes first. *)
Theorem messages_append_only_and_ordered :
  (forall (act : Action) (a : App.t),
      let stored := Pg.chat_messages (App.db a) in
      let stored' := Pg.chat_messages (App.db (step act a)) in
      match act with
      | Delete id _ =>
          stored' = stored
          \/ stored' = filter (fun m => negb (Pg.cascaded_message (App.user a) id
                                                (App.db a) m))
                              stored
      | Mount _ | SelectDoc _ _ | TypeInput _ | Send _ | Upload _ _ | SignOut =>
          exists new, stored' = stored ++ new
      end)
  /\ (forall (uid : option uuid) (id : uuid) (db : Pg.DB) (m m' : Pg.ChatMessage.t),
         Pg.ChatMessage.session_id m = Pg.ChatMessage.session_id m' ->
         Pg.cascaded_message uid id db m = Pg.cascaded_message uid id db m')
  /\ (forall (a : App.t) (sid : uuid),
         let shown := App.messages (run (loadMessages Delivered sid) a) in
         StronglySorted created_le shown
         /\ forall m1 m2,
             In m1 (Pg.chat_messages (App.db a)) ->
             In m2 (Pg.chat_messages (App.db a)) ->
             Pg.ChatMessage.session_id m1 = sid ->
             Pg.ChatMessage.session_id m2 = sid ->
             Pg.own_session (App.user a) sid (App.db a) = true ->
             (Pg.ChatMessage.created_at m1 < Pg.ChatMessage.created_at m2)%Z ->
             before m1 m2 shown).
Proof.
  split; [|split].
  - intros act a. cbv zeta. rewrite step_db.
    assert (Hsame : exists new : list Pg.ChatMessage.t,
               Pg.chat_messages (App.db a) = Pg.chat_messages (App.db a) ++ new)
      by (exists []; now rewrite app_nil_r).
    destruct act as [f|id w|value|w|file w|id w|]; auto.
    + destruct (same_selection _ _); [auto|].
      destruct (loadOrCreateSession_tables (Some id) w (with_selectedDocId (Some id) a))
        as (_ & -> & _). exact Hsame.
    + destruct (handleSend_tables a (App.selectedDocContent a) w)
        as (_ & _ & new & -> & _). now exists new.
    + destruct (handleFileUpload_tables file w a) as (_ & -> & _). exact Hsame.
    + rewrite handleDelete_db. destruct (on_document_delete w); auto.
  - intros uid id db m m' Heq. unfold Pg.cascaded_message. now rewrite Heq.
  - intros a sid. cbv zeta. rewrite loadMessages_delivered. split.
    + apply select_messages_sorted.
    + intros m1 m2. apply select_messages_before.
Qed.

(** The question, stored and created before its reply, is shown before
    it. *)
Lemma messages_ordered_sample :
  before Sample.question Sample.reply
         (App.messages (run (loadMessages Delivered 10%N) Sample.chatted)).
Proof.
  apply (proj2 (proj2 (proj2 messages_append_only_and_ordered) Sample.chatted 10%N)).
  - now left.
  - right. now left.
  - reflexivity.
  - reflexivity.
  - reflexivity.
  - reflexivity.
Defined.

(** Two rounds in a row are shown in the order they were stored. *)
Example two_rounds_shown_in_order :
  let a := steps [Send Sample.send_ok; TypeInput (Js.lit "more");
                  Send Sample.send_again] Sample.chatting in
  List.map (fun m => (Pg.ChatMessage.role m, Pg.ChatMessage.content m))
           (App.messages (run (loadMessages Delivered 10%N) a))
  = [ (Pg.ChatMessage.user, Js.lit "hi");
      (Pg.ChatMessage.assistant, Js.lit "hello");
      (Pg.ChatMessage.user, Js.lit "more");
      (Pg.ChatMessage.assistant, Js.lit "again") ].
Proof. reflexivity. Qed.

(* ================================================================= *)
(** * Further properties *)
(** Case analysis on what the services answered: the scrutinee of the
    innermost [match] of the goal, again and again. *)
Ltac answer_cases :=
  repeat match goal with
    | |- context [match ?x with _ => _ end] =>
        lazymatch x with
        | context [match _ with _ => _ end] => fail
        | _ => destruct x eqn:?; cbn
        end
    end.

Lemma loadOrCreateSession_user (documentId : option uuid) (w : SessionAnswers)
      (a : App.t) :
  App.user (run (loadOrCreateSession documentId w) a) = App.user a.
Proof.
  unfold loadOrCreateSession, loadMessages. handler. cbn.
  answer_cases; congruence.
Qed.

Lemma handleSend_user (dc : Js.str) (w : SendAnswers) (a : App.t) :
  App.user (run (handleSend dc w) a) = App.user a.
Proof.
  unfold handleSend. handler. cbn. answer_cases; congruence.
Qed.

Lemma handleFileUpload_user (file : option File.t) (w : UploadAnswers) (a : App.t) :
  App.user (run (handleFileUpload file w) a) = App.user a.
Proof.
  unfold handleFileUpload, loadDocuments. handler. cbn. answer_cases; congruence.
Qed.

Lemma handleDelete_user (id : uuid) (w : DeleteAnswers) (a : App.t) :
  App.user (run (handleDelete id w) a) = App.user a.
Proof.
  unfold handleDelete, loadDocuments. handler. cbn. answer_cases; congruence.
Qed.

(* ----------------------------------------------------------------- *)
(** ** Handlers as runs of statements *)

Lemma insert_message_accepts (u sid : uuid) (g : Pg.Generated)
      (role : Pg.ChatMessage.role_t) (content : Js.str) (db : Pg.DB) :
  Pg.own_session (Some u) sid db = true ->
  (forall m, In m (Pg.chat_messages db) -> Pg.ChatMessage.id m <> Pg.gen_random_uuid g) ->
  exists row db', Pg.insert_message (Some u) g sid role content db = Normal (row, db').
Proof.
  intros Hown Hfresh. unfold Pg.insert_message. rewrite Hown. cbn.
  destruct (existsb _ (Pg.chat_messages db)) eqn:Hpk; [|eauto].
  apply existsb_exists in Hpk as (m & Hm & Heq). apply N.eqb_eq in Heq.
  now destruct (Hfresh m Hm).
Qed.

(** What an accepted insert had to pass. *)
Lemma insert_session_checked uid g user_id document_id db row db' :
  Pg.insert_session uid g user_id document_id db = Normal (row, db') ->
  uid = Some user_id
  /\ (forall s, In s (Pg.chat_sessions db) -> Pg.ChatSession.id s <> Pg.gen_random_uuid g)
  /\ (exists d, In d (Pg.documents db) /\ Pg.Document.id d = document_id).
Proof.
  unfold Pg.insert_session.
  destruct (is_uid uid user_id) eqn:Huid; simpl; [|discriminate].
  destruct (existsb _ (Pg.chat_sessions db)) eqn:Hpk; [discriminate|].
  destruct (existsb _ (Pg.documents db)) eqn:Hfk; simpl; [|discriminate].
  intros _. repeat split.
  - destruct uid as [v|]; [|discriminate]. apply N.eqb_eq in Huid. now subst.
  - intros s Hs Heq.
    assert (existsb (fun s => N.eqb (Pg.ChatSession.id s) (Pg.gen_random_uuid g))
                    (Pg.chat_sessions db) = true); [|congruence].
    apply existsb_exists. exists s. split; [assumption|now apply N.eqb_eq].
  - apply existsb_exists in Hfk as (d & Hd & Heq). exists d.
    split; [assumption|now apply N.eqb_eq].
Qed.

Lemma insert_message_checked uid g sid role content db row db' :
  Pg.insert_message uid g sid role content db = Normal (row, db') ->
  forall m, In m (Pg.chat_messages db) -> Pg.ChatMessage.id m <> Pg.gen_random_uuid g.
Proof.
  unfold Pg.insert_message.
  destruct (Pg.own_session uid sid db); simpl; [|discriminate].
  destruct (existsb _ (Pg.chat_messages db)) eqn:Hpk; [discriminate|].
  intros _ m Hm Heq.
  assert (existsb (fun m => N.eqb (Pg.ChatMessage.id m) (Pg.gen_random_uuid g))
                  (Pg.chat_messages db) = true); [|congruence].
  apply existsb_exists. exists m. split; [assumption|now apply N.eqb_eq].
Qed.

Lemma insert_document_checked uid g user_id title content file_type file_size db db' :
  Pg.insert_document uid g user_id title content file_type file_size db = Normal db' ->
  uid = Some user_id.
Proof.
  unfold Pg.insert_document.
  destruct (is_uid uid user_id) eqn:Huid; simpl; [|discriminate].
  intros _. destruct uid as [v|]; [|discriminate]. apply N.eqb_eq in Huid. now subst.
Qed.

Lemma statements_one uid db db' : statement uid db db' -> statements uid db db'.
Proof. intros H. eapply statements_then; [exact H|apply statements_none]. Qed.

Lemma handleSend_statements (dc : Js.str) (w : SendAnswers) (a : App.t) :
  statements (App.user a) (App.db a) (App.db (run (handleSend dc w) a)).
Proof.
  unfold handleSend. handler. cbn.
  destruct (send_refused _ _ _); cbn; [apply statements_none|].
  destruct (App.sessionId a) as [sid|]; cbn; [|apply statements_none].
  destruct (on_user_insert w); cbn; [|apply statements_none].
  destruct (Pg.insert_message _ _ _ _ _ _) as [[row1 db1]|e1] eqn:H1; cbn;
    [|apply statements_none].
  pose proof (insert_message_accepted _ _ _ _ _ _ H1) as S1.
  destruct (answer w); cbn; [|now apply statements_one].
  destruct (on_assistant_insert w); cbn; [|now apply statements_one].
  destruct (Pg.insert_message _ _ _ _ _ db1) as [[row2 db2]|e2] eqn:H2; cbn;
    [|now apply statements_one].
  eapply statements_then; [exact S1|].
  apply statements_one. eapply insert_message_accepted. exact H2.
Qed.

Lemma loadOrCreateSession_statements (documentId : option uuid) (w : SessionAnswers)
      (a : App.t) :
  statements (App.user a) (App.db a) (App.db (run (loadOrCreateSession documentId w) a)).
Proof.
  destruct a. unfold loadOrCreateSession, loadMessages. handler. cbn.
  answer_cases; try apply statements_none;
    apply statements_one; eapply insert_session_accepted; eassumption.
Qed.

Lemma handleFileUpload_statements (file : option File.t) (w : UploadAnswers)
      (a : App.t) :
  statements (App.user a) (App.db a) (App.db (run (handleFileUpload file w) a)).
Proof.
  destruct a. unfold handleFileUpload, loadDocuments. handler. cbn.
  answer_cases; try apply statements_none;
    apply statements_one; eapply insert_document_accepted; eassumption.
Qed.

Lemma handleDelete_statements (id : uuid) (w : DeleteAnswers) (a : App.t) :
  statements (App.user a) (App.db a) (App.db (run (handleDelete id w) a)).
Proof.
  rewrite handleDelete_db. destruct (on_document_delete w).
  - apply statements_one. apply delete_document_accepted.
  - apply statements_none.
Qed.

(** Whatever an action does to the tables, it does through accepted
    statements run as the signed-in user. *)
Lemma step_statements (act : Action) (a : App.t) :
  statements (App.user a) (App.db a) (App.db (step act a)).
Proof.
  rewrite step_db. destruct act as [f|id w|value|w|file w|id w|];
    try apply statements_none.
  - destruct (same_selection _ _); [apply statements_none|].
    apply (loadOrCreateSession_statements (Some id) w (with_selectedDocId (Some id) a)).
  - apply handleSend_statements.
  - apply handleFileUpload_statements.
  - apply handleDelete_statements.
Qed.

(* ----------------------------------------------------------------- *)
(** ** Invariants of the tables *)

Lemma NoDup_snoc (A : Type) (l : list A) (x : A) :
  NoDup l -> ~ In x l -> NoDup (l ++ [x]).
Proof.
  intros Hl Hx. induction Hl as [|y l Hy Hl IH]; simpl.
  - constructor; [auto|constructor].
  - constructor.
    + rewrite in_app_iff. intros [H|[->|[]]]; [auto|]. apply Hx. now left.
    + apply IH. intros H. apply Hx. now right.
Qed.

Lemma NoDup_map_filter (A B : Type) (f : A -> B) (p : A -> bool) (l : list A) :
  NoDup (List.map f l) -> NoDup (List.map f (filter p l)).
Proof.
  induction l as [|x l IH]; simpl; intros H; [constructor|].
  inversion H as [|? ? Hx Hl]; subst.
  destruct (p x); simpl; [|auto].
  constructor; [|auto].
  rewrite in_map_iff in *. intros (y & Hy & Hin). apply Hx.
  exists y. split; [assumption|]. now apply filter_In in Hin.
Qed.

Lemma fresh_key (A : Type) (key : A -> uuid) (l : list A) (k : uuid) :
  (forall x, In x l -> key x <> k) -> ~ In k (List.map key l).
Proof.
  intros Hfresh Hin. apply in_map_iff in Hin as (x & Hk & Hx). now apply (Hfresh x).
Qed.

Lemma statement_keys_unique uid db db' :
  statement uid db db' -> keys_unique db -> keys_unique db'.
Proof.
  intros [g u title content ft fs db1 H|g u doc row db1 H|g sid role content row db1 H|id]
         (Hd & Hs & Hm); unfold keys_unique.
  - apply insert_document_inv in H as (Hfresh & -> & -> & ->).
    repeat split; try assumption.
    rewrite map_app. cbn. apply NoDup_snoc; [assumption|]. now apply fresh_key.
  - pose proof (insert_session_checked _ _ _ _ _ H) as (_ & Hfresh & _).
    apply insert_session_inv in H as (-> & -> & -> & ->).
    repeat split; try assumption.
    rewrite map_app. cbn. apply NoDup_snoc; [assumption|]. now apply fresh_key.
  - pose proof (insert_message_checked _ _ _ _ _ _ H) as Hfresh.
    apply insert_message_inv in H as (_ & -> & -> & -> & ->).
    repeat split; try assumption.
    rewrite map_app. cbn. apply NoDup_snoc; [assumption|]. now apply fresh_key.
  - unfold Pg.delete_document. cbn. repeat split; now apply NoDup_map_filter.
Qed.

Lemma statement_references_hold uid db db' :
  statement uid db db' -> references_hold db -> references_hold db'.
Proof.
  intros [g u title content ft fs db1 H|g u doc row db1 H|g sid role content row db1 H|id]
         (Hs & Hm); unfold references_hold.
  - apply insert_document_inv in H as (_ & -> & -> & ->). split; [|assumption].
    intros s Hin. destruct (Hs s Hin) as (d & Hd & Hid).
    exists d. split; [apply in_or_app; now left|assumption].
  - pose proof (insert_session_checked _ _ _ _ _ H) as (_ & _ & d & Hd & Hid).
    apply insert_session_inv in H as (-> & -> & -> & ->). split.
    + intros s Hin. apply in_app_or in Hin as [Hin|[<-|[]]]; [auto|].
      exists d. now split.
    + intros m Hin. destruct (Hm m Hin) as (s & Hin' & Hid').
      exists s. split; [apply in_or_app; now left|assumption].
  - pose proof H as Hinv. apply insert_message_inv in Hinv as (Hown & -> & -> & -> & ->).
    split; [assumption|].
    intros m Hin. apply in_app_or in Hin as [Hin|[<-|[]]]; [auto|]. cbn.
    apply own_session_exists in Hown as (s & Hin & Hid & _). now exists s.
  - unfold Pg.delete_document. cbn. split.
    + intros s Hin. apply filter_In in Hin as [Hin Hkept].
      destruct (Hs s Hin) as (d & Hd & Hid). exists d. split; [|assumption].
      apply filter_In. split; [assumption|].
      destruct (Pg.deleted_document uid id d) eqn:Hdel; [|reflexivity].
      assert (Pg.cascaded_session uid id db s = true); [|now destruct (Pg.cascaded_session _ _ _ _)].
      apply existsb_exists. exists d. split; [assumption|].
      rewrite Hdel, Hid, N.eqb_refl. reflexivity.
    + intros m Hin. apply filter_In in Hin as [Hin Hkept].
      destruct (Hm m Hin) as (s & Hin' & Hid). exists s. split; [|assumption].
      apply filter_In. split; [assumption|].
      destruct (Pg.cascaded_session uid id db s) eqn:Hdel; [|reflexivity].
      assert (Pg.cascaded_message uid id db m = true); [|now destruct (Pg.cascaded_message _ _ _ _)].
      apply existsb_exists. exists s. split; [assumption|].
      rewrite Hdel, Hid, N.eqb_refl. reflexivity.
Qed.

Lemma statement_documents_of uid db db' (u : uuid) :
  statement uid db db' -> uid <> Some u -> documents_of u db' = documents_of u db.
Proof.
  intros [g u0 title content ft fs db1 H|g u0 doc row db1 H|g sid role content row db1 H|id]
         Huid; unfold documents_of.
  - pose proof (insert_document_checked _ _ _ _ _ _ _ _ H) as ->.
    apply insert_document_inv in H as (_ & -> & _).
    rewrite filter_app. cbn.
    destruct (N.eqb u0 u) eqn:Heq; [|now rewrite app_nil_r].
    apply N.eqb_eq in Heq. congruence.
  - apply insert_session_inv in H as (_ & -> & _). reflexivity.
  - apply insert_message_inv in H as (_ & _ & -> & _). reflexivity.
  - unfold Pg.delete_document. cbn.
    induction (Pg.documents db) as [|d l IH]; cbn; [reflexivity|].
    destruct (Pg.deleted_document uid id d) eqn:Hdel; cbn.
    + destruct (N.eqb (Pg.Document.user_id d) u) eqn:Hu; [|exact IH].
      apply N.eqb_eq in Hu. unfold Pg.deleted_document in Hdel.
      apply andb_prop in Hdel as [_ Hown]. destruct uid as [v|]; [|discriminate].
      apply N.eqb_eq in Hown. congruence.
    + destruct (N.eqb (Pg.Document.user_id d) u); [now rewrite IH|exact IH].
Qed.

Lemma statements_preserve (P : Pg.DB -> Prop) uid db db' :
  (forall db1 db2, statement uid db1 db2 -> P db1 -> P db2) ->
  statements uid db db' -> P db -> P db'.
Proof.
  intros Hstep Hrun. induction Hrun as [|db db1 db2 H _ IH]; [auto|].
  intros HP. apply IH. now apply (Hstep db db1).
Qed.

Lemma steps_preserve (P : Pg.DB -> Prop) :
  (forall uid db1 db2, statement uid db1 db2 -> P db1 -> P db2) ->
  forall acts a, P (App.db a) -> P (App.db (steps acts a)).
Proof.
  intros Hstep. induction acts as [|act acts IH]; intros a HP; [exact HP|].
  change (P (App.db (steps acts (step act a)))). apply IH. eapply statements_preserve; [apply Hstep|apply step_statements|exact HP].
Qed.

Lemma step_user (act : Action) (a : App.t) :
  App.user (step act a) = App.user a \/ App.user (step act a) = None.
Proof.
  destruct act as [f|id w|value|w|file w|id w|]; unfold step, perform;
    [left|left|left|left|left|left|right; reflexivity];
    destruct a;
    unfold loadOrCreateSession, handleSend, handleFileUpload, handleDelete,
      loadDocuments, loadMessages, syncSelectedDocContent; handler; cbn;
    answer_cases; reflexivity.
Qed.

Lemma steps_cons (act : Action) (acts : list Action) (a : App.t) :
  steps (act :: acts) a = steps acts (step act a).
Proof. reflexivity. Qed.

Lemma steps_user (acts : list Action) :
  forall a, App.user (steps acts a) = App.user a \/ App.user (steps acts a) = None.
Proof.
  induction acts as [|act acts IH]; intros a; [now left|].
  rewrite steps_cons. destruct (IH (step act a)) as [H|H]; [|now right].
  rewrite H. apply step_user.
Qed.

(** X1. Primary keys hold along every run of the application: if no two
    rows of a table share their id, no sequence of actions makes two rows
    share one, whatever ids the inserts generate. *)
Theorem primary_keys_stay_unique (acts : list Action) (a : App.t) :
  keys_unique (App.db a) -> keys_unique (App.db (steps acts a)).
Proof.
  revert acts a. apply (steps_preserve keys_unique).
  intros uid db1 db2. apply statement_keys_unique.
Qed.

(** X2. Foreign keys hold along every run of the application: if every
    session is on a stored document and every message in a stored session,
    this is so after any sequence of actions, deletes with their cascades
    included. *)
Theorem references_stay_valid (acts : list Action) (a : App.t) :
  references_hold (App.db a) -> references_hold (App.db (steps acts a)).
Proof.
  revert acts a. apply (steps_preserve references_hold).
  intros uid db1 db2. apply statement_references_hold.
Qed.

Lemma statements_documents_of uid db db' (u : uuid) :
  statements uid db db' -> uid <> Some u -> documents_of u db' = documents_of u db.
Proof.
  intros Hrun Hu. induction Hrun as [|db db1 db2 H _ IH]; [reflexivity|].
  rewrite IH. now apply statement_documents_of with (uid := uid).
Qed.

(** X3. No sequence of actions of the signed-in user adds, removes or
    changes a document of another user. *)
Theorem other_users_documents_untouched (acts : list Action) (a : App.t) (u : uuid) :
  App.user a <> Some u ->
  documents_of u (App.db (steps acts a)) = documents_of u (App.db a).
Proof.
  revert a. induction acts as [|act acts IH]; intros a Hu; [reflexivity|].
  rewrite steps_cons, IH.
  - apply statements_documents_of with (uid := App.user a);
      [apply step_statements|exact Hu].
  - destruct (step_user act a) as [-> | ->]; [exact Hu|discriminate].
Qed.

(* ----------------------------------------------------------------- *)
(** ** Signed out *)

Lemma own_session_anonymous sid db : Pg.own_session None sid db = false.
Proof.
  unfold Pg.own_session. induction (Pg.chat_sessions db) as [|s l IH]; cbn; [reflexivity|].
  now rewrite andb_false_r.
Qed.

Lemma filter_all (A : Type) (p : A -> bool) (l : list A) :
  (forall x, In x l -> p x = true) -> filter p l = l.
Proof.
  intros H. apply forallb_filter_id. now apply forallb_forall.
Qed.

(** A delete that matches no document of the signed-in user removes
    nothing. *)
Lemma delete_document_no_match uid id db :
  (forall d, In d (Pg.documents db) -> Pg.deleted_document uid id d = false) ->
  Pg.delete_document uid id db = db.
Proof.
  intros Hnone.
  assert (Hs : forall s, Pg.cascaded_session uid id db s = false).
  { intros s. unfold Pg.cascaded_session.
    destruct (existsb _ _) eqn:H; [|reflexivity].
    apply existsb_exists in H as (d & Hd & H). now rewrite (Hnone d Hd) in H. }
  assert (Hm : forall m, Pg.cascaded_message uid id db m = false).
  { intros m. unfold Pg.cascaded_message.
    destruct (existsb _ _) eqn:H; [|reflexivity].
    apply existsb_exists in H as (s & _ & H). now rewrite Hs in H. }
  unfold Pg.delete_document. destruct db as [docs sessions messages]. cbn in *.
  f_equal; apply filter_all; intros x Hx.
  - now rewrite Hnone.
  - now rewrite Hs.
  - now rewrite Hm.
Qed.

Lemma statement_anonymous db db' : statement None db db' -> db' = db.
Proof.
  intros [g u title content ft fs db1 H|g u doc row db1 H|g sid role content row db1 H|id].
  - apply insert_document_checked in H. discriminate.
  - apply insert_session_checked in H as (H & _). discriminate.
  - apply insert_message_inv in H as (H & _). now rewrite own_session_anonymous in H.
  - apply delete_document_no_match. intros d _. unfold Pg.deleted_document. cbn.
    apply andb_false_r.
Qed.

Lemma step_invocations_signed_out (act : Action) (a : App.t) :
  App.user a = None -> App.invocations (step act a) = App.invocations a.
Proof.
  intros Hu. destruct a. cbn in Hu. subst.
  destruct act as [f|id w|value|w|file w|id w|]; unfold step, perform;
    unfold loadOrCreateSession, handleSend, handleFileUpload, handleDelete,
      handleSignOut, loadDocuments, loadMessages, syncSelectedDocContent;
    handler; cbn;
    answer_cases; try reflexivity;
    match goal with
    | H : Pg.insert_message None _ _ _ _ _ = Normal _ |- _ =>
        apply insert_message_inv in H as (H & _);
        now rewrite own_session_anonymous in H
    end.
Qed.

(** X4. While nobody is signed in, nothing the application does reaches
    the tables or the edge function: after any sequence of actions the three
    tables are as they were and no call of the edge function was made. *)
Theorem signed_out_changes_nothing (acts : list Action) (a : App.t) :
  App.user a = None ->
  App.db (steps acts a) = App.db a
  /\ App.invocations (steps acts a) = App.invocations a
  /\ App.user (steps acts a) = None.
Proof.
  revert a. induction acts as [|act acts IH]; intros a Hu; [auto|].
  assert (Hu' : App.user (step act a) = None).
  { destruct (step_user act a) as [H|H]; congruence. }
  rewrite steps_cons. destruct (IH _ Hu') as (-> & -> & ->).
  repeat split.
  - pose proof (step_statements act a) as Hrun. rewrite Hu in Hrun.
    induction Hrun as [|db db1 db2 H _ IHrun]; [reflexivity|].
    apply statement_anonymous in H. now subst.
  - now apply step_invocations_signed_out.
Qed.

(* ----------------------------------------------------------------- *)
(** ** The chat round trip, path by path *)

Lemma existsb_fresh (A : Type) (key : A -> uuid) (l : list A) (k : uuid) :
  (forall x, In x l -> key x <> k) -> existsb (fun x => N.eqb (key x) k) l = false.
Proof.
  intros Hfresh. destruct (existsb _ l) eqn:H; [|reflexivity].
  apply existsb_exists in H as (x & Hx & Heq). apply N.eqb_eq in Heq.
  now destruct (Hfresh x Hx).
Qed.

(** An insert into an own session under an unused key stores exactly the
    row asked for. *)
Lemma insert_message_stores uid g sid role content db :
  Pg.own_session uid sid db = true ->
  (forall m, In m (Pg.chat_messages db) -> Pg.ChatMessage.id m <> Pg.gen_random_uuid g) ->
  let row := {| Pg.ChatMessage.id := Pg.gen_random_uuid g;
                Pg.ChatMessage.session_id := sid;
                Pg.ChatMessage.role := role;
                Pg.ChatMessage.content := content;
                Pg.ChatMessage.created_at := Pg.now g |} in
  Pg.insert_message uid g sid role content db
  = Normal (row, {| Pg.documents := Pg.documents db;
                    Pg.chat_sessions := Pg.chat_sessions db;
                    Pg.chat_messages := Pg.chat_messages db ++ [row] |}).
Proof.
  intros Hown Hfresh. unfold Pg.insert_message. rewrite Hown. cbn.
  now rewrite (existsb_fresh Pg.ChatMessage.id _ Hfresh).
Qed.

(** X6. A send that nothing stops stores the trimmed question and the
    answer of the edge function, in this order, in the active session; it
    shows both, clears the input, passes the question, the document content
    and the session id to the edge function once, and notifies of nothing. *)
Theorem handleSend_round_trip
        (a : App.t) (dc : Js.str) (w : SendAnswers) (sid : uuid) (reply : Js.str) :
  send_refused (App.input a) (App.sessionId a) dc = false ->
  App.sessionId a = Some sid ->
  Pg.own_session (App.user a) sid (App.db a) = true ->
  on_user_insert w = Delivered ->
  answer w = Normal reply ->
  on_assistant_insert w = Delivered ->
  (forall m, In m (Pg.chat_messages (App.db a)) ->
             Pg.ChatMessage.id m <> Pg.gen_random_uuid (user_defaults w)
             /\ Pg.ChatMessage.id m <> Pg.gen_random_uuid (assistant_defaults w)) ->
  Pg.gen_random_uuid (user_defaults w) <> Pg.gen_random_uuid (assistant_defaults w) ->
  let a' := run (handleSend dc w) a in
  let asked := {| Pg.ChatMessage.id := Pg.gen_random_uuid (user_defaults w);
                  Pg.ChatMessage.session_id := sid;
                  Pg.ChatMessage.role := Pg.ChatMessage.user;
                  Pg.ChatMessage.content := Js.trim (App.input a);
                  Pg.ChatMessage.created_at := Pg.now (user_defaults w) |} in
  let answered := {| Pg.ChatMessage.id := Pg.gen_random_uuid (assistant_defaults w);
                     Pg.ChatMessage.session_id := sid;
                     Pg.ChatMessage.role := Pg.ChatMessage.assistant;
                     Pg.ChatMessage.content := reply;
                     Pg.ChatMessage.created_at := Pg.now (assistant_defaults w) |} in
  Pg.chat_messages (App.db a') = Pg.chat_messages (App.db a) ++ [asked; answered]
  /\ App.messages a' = App.messages a ++ [asked; answered]
  /\ App.invocations a'
     = App.invocations a ++ [ {| message := Js.trim (App.input a);
                                 documentContent := dc;
                                 sessionId := sid |} ]
  /\ App.input a' = []
  /\ App.loading a' = false
  /\ App.toasts a' = App.toasts a.
Proof.
  intros Hguard Hsid Hown Hf1 Hanswer Hf2 Hfresh Hdistinct. cbv zeta.
  pose proof (insert_message_stores (App.user a) (user_defaults w) sid
                Pg.ChatMessage.user (Js.trim (App.input a)) (App.db a) Hown
                (fun m Hm => proj1 (Hfresh m Hm))) as H1.
  cbv zeta in H1.
  set (asked := {| Pg.ChatMessage.id := Pg.gen_random_uuid (user_defaults w);
                   Pg.ChatMessage.session_id := sid;
                   Pg.ChatMessage.role := Pg.ChatMessage.user;
                   Pg.ChatMessage.content := Js.trim (App.input a);
                   Pg.ChatMessage.created_at := Pg.now (user_defaults w) |}) in *.
  set (db1 := {| Pg.documents := Pg.documents (App.db a);
                 Pg.chat_sessions := Pg.chat_sessions (App.db a);
                 Pg.chat_messages := Pg.chat_messages (App.db a) ++ [asked] |}) in *.
  assert (H2 := insert_message_stores (App.user a) (assistant_defaults w) sid
                  Pg.ChatMessage.assistant reply db1).
  cbv zeta in H2. specialize (H2 Hown).
  assert (Hfresh2 : forall m, In m (Pg.chat_messages db1) ->
            Pg.ChatMessage.id m <> Pg.gen_random_uuid (assistant_defaults w)).
  { intros m Hm. apply in_app_or in Hm as [Hm|[<-|[]]]; [now apply Hfresh|exact Hdistinct]. }
  specialize (H2 Hfresh2).
  unfold handleSend. handler. cbn.
  rewrite Hguard, Hsid, Hf1. cbn. rewrite H1. cbn. rewrite Hanswer, Hf2. cbn.
  rewrite H2. cbn. rewrite <- !app_assoc. cbn. auto 10.
Qed.

(** X7. When storing the question fails, whether the request fails or the
    insert is refused, nothing is stored and the edge function is not called;
    the typed text is gone from the input all the same, and one notification
    reports the error. *)
Theorem handleSend_question_not_stored
        (a : App.t) (dc : Js.str) (w : SendAnswers) (sid : uuid) :
  send_refused (App.input a) (App.sessionId a) dc = false ->
  App.sessionId a = Some sid ->
  (exists msg, on_user_insert w = Failed msg)
  \/ (exists e, Pg.insert_message (App.user a) (user_defaults w) sid
                  Pg.ChatMessage.user (Js.trim (App.input a)) (App.db a) = Throw e) ->
  let a' := run (handleSend dc w) a in
  App.db a' = App.db a
  /\ App.invocations a' = App.invocations a
  /\ App.messages a' = App.messages a
  /\ App.input a' = []
  /\ App.loading a' = false
  /\ exists e, App.toasts a' = App.toasts a ++ [error_toast "Error" e].
Proof.
  intros Hguard Hsid Hfail. cbv zeta. unfold handleSend. handler. cbn.
  rewrite Hguard, Hsid. cbn.
  destruct Hfail as [[msg Hf]|[e He]].
  - rewrite Hf. cbn. eauto 10.
  - destruct (on_user_insert w); cbn; [rewrite He; cbn|]; eauto 10.
Qed.

(** X8. When the answer of the edge function cannot be stored, the question
    stays stored and shown, the answer is neither stored nor shown, and one
    notification reports the error. *)
Theorem handleSend_answer_not_stored
        (a : App.t) (dc : Js.str) (w : SendAnswers) (sid : uuid) (reply : Js.str)
        (savedUserMsg : Pg.ChatMessage.t) (db1 : Pg.DB) :
  send_refused (App.input a) (App.sessionId a) dc = false ->
  App.sessionId a = Some sid ->
  on_user_insert w = Delivered ->
  Pg.insert_message (App.user a) (user_defaults w) sid Pg.ChatMessage.user
                    (Js.trim (App.input a)) (App.db a) = Normal (savedUserMsg, db1) ->
  answer w = Normal reply ->
  (exists msg, on_assistant_insert w = Failed msg)
  \/ (exists e, Pg.insert_message (App.user a) (assistant_defaults w) sid
                  Pg.ChatMessage.assistant reply db1 = Throw e) ->
  let a' := run (handleSend dc w) a in
  Pg.chat_messages (App.db a') = Pg.chat_messages (App.db a) ++ [savedUserMsg]
  /\ Pg.ChatMessage.role savedUserMsg = Pg.ChatMessage.user
  /\ App.messages a' = App.messages a ++ [savedUserMsg]
  /\ List.length (App.invocations a') = S (List.length (App.invocations a))
  /\ App.loading a' = false
  /\ exists e, App.toasts a' = App.toasts a ++ [error_toast "Error" e].
Proof.
  intros Hguard Hsid Hf1 Hins Hanswer Hfail. cbv zeta.
  pose proof Hins as Hinv. apply insert_message_inv in Hinv.
  destruct Hinv as (_ & Hrow & _ & _ & Hmsgs).
  unfold handleSend. handler. cbn.
  rewrite Hguard, Hsid, Hf1. cbn. rewrite Hins. cbn. rewrite Hanswer. cbn.
  assert (Hlen : forall (l : list InvokeBody) (x : InvokeBody),
             List.length (l ++ [x]) = S (List.length l))
    by (intros; rewrite length_app; cbn; lia).
  destruct Hfail as [[msg Hf]|[e He]].
  - rewrite Hf. cbn. rewrite Hmsgs, Hrow, Hlen. cbn. eauto 10.
  - destruct (on_assistant_insert w); cbn; [rewrite He; cbn|];
      rewrite Hmsgs, Hrow, Hlen; cbn; eauto 10.
Qed.

(** X9. A send that passes the guard always settles: the input is cleared
    and the loading flag is down again, and either both rows were stored and
    no notification shown, or at most the question was stored and exactly one
    notification reports the error. *)
Theorem handleSend_settles (a : App.t) (dc : Js.str) (w : SendAnswers) :
  send_refused (App.input a) (App.sessionId a) dc = false ->
  let a' := run (handleSend dc w) a in
  let stored := List.length (Pg.chat_messages (App.db a)) in
  let stored' := List.length (Pg.chat_messages (App.db a')) in
  App.input a' = []
  /\ App.loading a' = false
  /\ ((stored' = stored + 2 /\ App.toasts a' = App.toasts a)
      \/ (stored' <= stored + 1
          /\ exists e, App.toasts a' = App.toasts a ++ [error_toast "Error" e])).
Proof.
  intros Hguard. cbv zeta. unfold handleSend. handler. cbn. rewrite Hguard.
  destruct (App.sessionId a) as [sid|] eqn:Hsid.
  2:{ unfold send_refused in Hguard. rewrite orb_true_r in Hguard. discriminate. }
  cbn.
  destruct (on_user_insert w); cbn; [|repeat split; right; split; [lia|eauto]].
  destruct (Pg.insert_message _ _ _ _ _ _) as [[row1 db1]|e1] eqn:H1; cbn;
    [|repeat split; right; split; [lia|eauto]].
  apply insert_message_inv in H1 as (_ & _ & _ & _ & Hm1).
  assert (Hlen1 : List.length (Pg.chat_messages db1)
                  = List.length (Pg.chat_messages (App.db a)) + 1)
    by (rewrite Hm1, length_app; reflexivity).
  destruct (answer w); cbn; [|repeat split; right; split; [lia|eauto]].
  destruct (on_assistant_insert w); cbn; [|repeat split; right; split; [lia|eauto]].
  destruct (Pg.insert_message _ _ _ _ _ db1) as [[row2 db2]|e2] eqn:H2; cbn;
    [|repeat split; right; split; [lia|eauto]].
  apply insert_message_inv in H2 as (_ & _ & _ & _ & Hm2).
  repeat split. left. split; [|reflexivity].
  rewrite Hm2, length_app. cbn. lia.
Qed.

(** X10. Whatever a send stores as the user's message is the typed text
    trimmed: it is not empty and neither starts nor ends with white space. *)
Theorem handleSend_stores_trimmed_question (a : App.t) (dc : Js.str) (w : SendAnswers) :
  let a' := run (handleSend dc w) a in
  exists new,
    Pg.chat_messages (App.db a') = Pg.chat_messages (App.db a) ++ new
    /\ forall m, In m new -> Pg.ChatMessage.role m = Pg.ChatMessage.user ->
         Pg.ChatMessage.content m = Js.trim (App.input a)
         /\ Pg.ChatMessage.content m <> []
         /\ starts_black (Pg.ChatMessage.content m)
         /\ starts_black (rev (Pg.ChatMessage.content m)).
Proof.
  cbv zeta. unfold handleSend. handler. cbn.
  assert (Hnone : exists new : list Pg.ChatMessage.t,
             Pg.chat_messages (App.db a) = Pg.chat_messages (App.db a) ++ new
             /\ forall m, In m new -> Pg.ChatMessage.role m = Pg.ChatMessage.user ->
                  Pg.ChatMessage.content m = Js.trim (App.input a)
                  /\ Pg.ChatMessage.content m <> []
                  /\ starts_black (Pg.ChatMessage.content m)
                  /\ starts_black (rev (Pg.ChatMessage.content m)))
    by (exists []; rewrite app_nil_r; split; [reflexivity|contradiction]).
  destruct (send_refused _ _ _) eqn:Hguard; cbn; [exact Hnone|].
  destruct (App.sessionId a) as [sid|]; cbn; [|exact Hnone].
  assert (Htrim : Js.trim (App.input a) <> []
                  /\ starts_black (Js.trim (App.input a))
                  /\ starts_black (rev (Js.trim (App.input a)))).
  { destruct (trim_spec (App.input a)) as (_ & _ & _ & _ & _ & Hhead & Hlast).
    repeat split; try assumption.
    unfold send_refused in Hguard. intros Hnil. now rewrite Hnil in Hguard. }
  destruct (on_user_insert w); cbn; [|exact Hnone].
  destruct (Pg.insert_message _ _ _ _ _ _) as [[row1 db1]|e1] eqn:H1; cbn;
    [|exact Hnone].
  apply insert_message_inv in H1 as (_ & Hrow1 & _ & _ & Hm1).
  assert (Hone : forall m, In m [row1] -> Pg.ChatMessage.role m = Pg.ChatMessage.user ->
                   Pg.ChatMessage.content m = Js.trim (App.input a)
                   /\ Pg.ChatMessage.content m <> []
                   /\ starts_black (Pg.ChatMessage.content m)
                   /\ starts_black (rev (Pg.ChatMessage.content m))).
  { intros m [<-|[]] _. rewrite Hrow1. cbn. tauto. }
  destruct (answer w); cbn; [|exists [row1]; auto].
  destruct (on_assistant_insert w); cbn; [|exists [row1]; auto].
  destruct (Pg.insert_message _ _ _ _ _ db1) as [[row2 db2]|e2] eqn:H2; cbn;
    [|exists [row1]; auto].
  apply insert_message_inv in H2 as (_ & Hrow2 & _ & _ & Hm2).
  exists [row1; row2]. rewrite Hm2, Hm1, <- app_assoc. split; [reflexivity|].
  intros m [<-|[<-|[]]] Hrole; [apply Hone; [now left|exact Hrole]|].
  rewrite Hrow2 in Hrole. discriminate.
Qed.

(* ----------------------------------------------------------------- *)
(** ** What the lists show *)

(** X11. [loadMessages] shows the signed-in user the messages of their own
    session, all of them and nothing else; for a session that is not theirs,
    or with nobody signed in, it shows an empty list.  When the request fails
    the list shown stays as it was and one notification reports the error. *)
Theorem loadMessages_shows_own_session (a : App.t) (sessId : uuid) :
  (Pg.own_session (App.user a) sessId (App.db a) = true ->
   Permutation (App.messages (run (loadMessages Delivered sessId) a))
               (filter (fun m => N.eqb (Pg.ChatMessage.session_id m) sessId)
                       (Pg.chat_messages (App.db a))))
  /\ (Pg.own_session (App.user a) sessId (App.db a) = false ->
      App.messages (run (loadMessages Delivered sessId) a) = [])
  /\ (forall msg,
         let a' := run (loadMessages (Failed msg) sessId) a in
         App.messages a' = App.messages a
         /\ App.toasts a'
            = App.toasts a ++ [error_toast "Error loading messages" (Rejected msg)]).
Proof.
  split; [|split].
  - intros Hown. rewrite loadMessages_delivered. unfold Pg.select_messages.
    rewrite order_by_perm.
    erewrite filter_ext_in; [reflexivity|].
    intros m _. cbn. destruct (N.eqb _ sessId) eqn:Heq; [|reflexivity].
    apply N.eqb_eq in Heq. now rewrite Heq, Hown.
  - intros Hown. rewrite loadMessages_delivered. unfold Pg.select_messages.
    replace (filter _ (Pg.chat_messages (App.db a))) with (@nil Pg.ChatMessage.t);
      [reflexivity|].
    symmetry. induction (Pg.chat_messages (App.db a)) as [|m l IH]; cbn; [reflexivity|].
    destruct (N.eqb _ sessId) eqn:Heq; cbn; [|exact IH].
    apply N.eqb_eq in Heq. now rewrite Heq, Hown.
  - intros msg. split; reflexivity.
Qed.

Lemma documents_newest_first_total x y :
  Pg.Document.newest_first x y = true \/ Pg.Document.newest_first y x = true.
Proof. unfold Pg.Document.newest_first. rewrite !Z.leb_le. lia. Qed.

Lemma documents_newest_first_trans x y z :
  Pg.Document.newest_first x y = true -> Pg.Document.newest_first y z = true ->
  Pg.Document.newest_first x z = true.
Proof. unfold Pg.Document.newest_first, timestamptz. rewrite !Z.leb_le. lia. Qed.

(** X12. [loadDocuments] lists the signed-in user's documents, all of them
    and no one else's, newest first, and leaves the tables alone; when the
    request fails the list stays as it was and one notification reports the
    error. *)
Theorem loadDocuments_lists_own_newest_first (a : App.t) (u : uuid) :
  App.user a = Some u ->
  (let a' := run (loadDocuments Delivered) a in
   Permutation (App.documents a') (documents_of u (App.db a))
   /\ StronglySorted (fun x y => (Pg.Document.created_at y <= Pg.Document.created_at x)%Z)
                     (App.documents a')
   /\ App.db a' = App.db a)
  /\ (forall msg,
         let a' := run (loadDocuments (Failed msg)) a in
         App.documents a' = App.documents a
         /\ App.db a' = App.db a
         /\ App.toasts a'
            = App.toasts a ++ [error_toast "Error loading documents" (Rejected msg)]).
Proof.
  intros Hu. split.
  - cbv zeta. unfold loadDocuments. handler. cbn. rewrite Hu.
    unfold Pg.select_documents. repeat split.
    + rewrite order_by_perm. unfold documents_of.
      erewrite filter_ext; [reflexivity|]. intros d. cbn. apply N.eqb_sym.
    + apply StronglySorted_impl
        with (R := fun x y => Pg.Document.newest_first x y = true).
      * intros x y. apply Z.leb_le.
      * apply order_by_sorted;
          [exact documents_newest_first_total|exact documents_newest_first_trans].
  - intros msg. repeat split.
Qed.

(* ----------------------------------------------------------------- *)
(** ** Extraction and upload *)

Lemma extract_loop_first_rejection (pdf : Pdf.PDFDocumentProxy) (e : Error) :
  forall j n i fullText read,
    j < n ->
    List.map (Pdf.getPageTextContent pdf) (seq i j) = List.map Normal read ->
    Pdf.getPageTextContent pdf (i + j) = Throw e ->
    extract_loop pdf n i fullText = Throw e.
Proof.
  induction j as [|j IH]; intros n i fullText read Hj Hread Hthrow;
    (destruct n as [|n]; [lia|]); simpl.
  - rewrite Nat.add_0_r in Hthrow. now rewrite Hthrow.
  - destruct read as [|items read]; [discriminate|].
    simpl in Hread. injection Hread as Hhead Htail. rewrite Hhead.
    apply (IH n (S i) _ read); [lia|exact Htail|].
    now rewrite Nat.add_succ_comm.
Qed.

(** X13. [extractTextFromPDF] recovers from nothing: the error of the first
    page the library fails on is the error of the whole extraction, whatever
    the pages before it held. *)
Theorem extractTextFromPDF_propagates_rejection
        (pdf : Pdf.PDFDocumentProxy) (k : nat) (e : Error)
        (read : list (list Pdf.TextItem)) :
  1 <= k <= Pdf.numPages pdf ->
  List.map (Pdf.getPageTextContent pdf) (seq 1 (k - 1)) = List.map Normal read ->
  Pdf.getPageTextContent pdf k = Throw e ->
  extractTextFromPDF (Normal pdf) = Throw e.
Proof.
  intros Hk Hread Hthrow. unfold extractTextFromPDF.
  erewrite (@extract_loop_first_rejection pdf e (k - 1));
    [reflexivity|lia|exact Hread|].
  replace (1 + (k - 1)) with k by lia. exact Hthrow.
Qed.

Lemma blank_app (s t : Js.str) : blank (s ++ t) = blank s && blank t.
Proof. apply forallb_app. Qed.

Lemma trimStart_blank (s : Js.str) : blank s = true -> Js.trimStart s = [].
Proof.
  induction s as [|c s IH]; [reflexivity|]. cbn.
  intros H. apply andb_prop in H as [Hc Hs]. rewrite Hc. auto.
Qed.

Lemma trim_blank (s : Js.str) : blank s = true -> Js.trim s = [].
Proof.
  intros H. unfold Js.trim, Js.trimEnd. now rewrite (trimStart_blank s H).
Qed.

Lemma join_blank (sep : Js.str) (xs : list Js.str) :
  blank sep = true -> (forall x, In x xs -> blank x = true) ->
  blank (Js.join sep xs) = true.
Proof.
  intros Hsep. induction xs as [|x xs IH]; intros Hxs; [reflexivity|].
  destruct xs as [|y xs]; [apply Hxs; now left|].
  change (blank (x ++ sep ++ Js.join sep (y :: xs)) = true).
  rewrite !blank_app, Hsep, (Hxs x (or_introl eq_refl)), IH; [reflexivity|].
  intros z Hz. apply Hxs. now right.
Qed.

(** X14. A document whose pages hold no text, or white space only, as a
    scan does, is extracted to the empty string. *)
Theorem extractTextFromPDF_blank_document
        (pdf : Pdf.PDFDocumentProxy) (pages : list (list Pdf.TextItem)) :
  pages_of pdf = List.map Normal pages ->
  (forall items item, In items pages -> In item items -> blank (Pdf.str item) = true) ->
  extractTextFromPDF (Normal pdf) = Normal [].
Proof.
  intros Hpages Hblank. unfold extractTextFromPDF.
  rewrite (extract_loop_concat pdf _ _ [] pages Hpages). cbn [app].
  rewrite trim_blank; [reflexivity|].
  clear Hpages. induction pages as [|items pages IH]; [reflexivity|].
  cbn [List.map List.concat]. rewrite blank_app, IH.
  - unfold page_text. rewrite blank_app, join_blank; [reflexivity|reflexivity|].
    intros x Hx. apply in_map_iff in Hx as (item & <- & Hitem).
    apply (Hblank items item); [now left|exact Hitem].
  - intros items' item Hin. apply Hblank. now right.
Qed.

(** X15. For a PDF whose pages the library yields, uploaded by a signed-in
    user with the insert delivered under an unused key, [handleFileUpload]
    appends one document row: its content is the trimmed concatenation of the
    pages' texts and its title, type and size are the file's. *)
Theorem handleFileUpload_stores_extracted_text
        (file : File.t) (w : UploadAnswers) (a : App.t)
        (pdf : Pdf.PDFDocumentProxy) (pages : list (list Pdf.TextItem)) (u : uuid) :
  is_pdf file = true ->
  File.pdf file = Normal pdf ->
  pages_of pdf = List.map Normal pages ->
  App.user a = Some u ->
  on_document_insert w = Delivered ->
  (forall d, In d (Pg.documents (App.db a)) ->
             Pg.Document.id d <> Pg.gen_random_uuid (document_defaults w)) ->
  exists d,
    Pg.documents (App.db (run (handleFileUpload (Some file) w) a))
    = Pg.documents (App.db a) ++ [d]
    /\ Pg.Document.content d = spec_extracted_text pages
    /\ Pg.Document.title d = File.name file
    /\ Pg.Document.file_type d = File.type file
    /\ Pg.Document.file_size d = File.size file
    /\ Pg.Document.user_id d = u.
Proof.
  intros Hpdf Hfile Hpages Huser Hfetch Hfresh.
  assert (Htext : extractTextFromPDF (File.pdf file) = Normal (spec_extracted_text pages)).
  { rewrite Hfile. unfold extractTextFromPDF, spec_extracted_text.
    now rewrite (extract_loop_concat pdf _ _ [] pages Hpages). }
  destruct (insert_document_accepts u (document_defaults w) (File.name file)
              (spec_extracted_text pages) (File.type file) (File.size file)
              (App.db a) Hfresh) as [db' Hins].
  pose proof Hins as Hinv. apply insert_document_inv in Hinv.
  destruct Hinv as (_ & Hdocs & _).
  eexists. unfold handleFileUpload, loadDocuments. handler. cbn.
  rewrite Hpdf, Htext. cbn. rewrite Huser, Hfetch. cbn. rewrite Huser, Hins. cbn.
  destruct (on_upload_reload w); cbn; rewrite Hdocs; repeat split; reflexivity.
Qed.

Lemma select_documents_In uid db d :
  In d (Pg.select_documents uid db) <->
  In d (Pg.documents db) /\ is_uid uid (Pg.Document.user_id d) = true.
Proof. unfold Pg.select_documents. now rewrite order_by_In, filter_In. Qed.

Ltac upload_cases a w :=
  let Hu := fresh "Hu" in
  destruct (App.user a) as [?u|] eqn:Hu; cbn; [|split; [reflexivity|left; eauto]];
  destruct (on_document_insert w); cbn; [|split; [reflexivity|left; eauto]];
  let Hins := fresh "Hins" in
  destruct (Pg.insert_document _ _ _ _ _ _ _ _) as [?db|?e] eqn:Hins; cbn;
    [|split; [reflexivity|left; eauto]];
  let Hdocs := fresh "Hdocs" in
  apply insert_document_inv in Hins as (_ & Hdocs & _);
  destruct (on_upload_reload w); cbn; (split; [reflexivity|right]);
  eexists; (split; [exact Hdocs|]);
  [ rewrite <- ?app_assoc; split; [reflexivity|];
    apply select_documents_In; rewrite Hdocs;
    split; [apply in_or_app; right; now left|]; cbn; rewrite ?Hu; cbn;
    apply N.eqb_refl
  | rewrite <- ?app_assoc; split; reflexivity ].

(** X16. An upload always settles: the uploading flag is down again, and
    either nothing was stored and exactly one notification reports the
    failure, or one row was stored and the success notification is shown;
    then, if the list is reloaded, it shows the new document, and if
    reloading fails, a second notification says so and the list is stale. *)
Theorem handleFileUpload_settles (file : File.t) (w : UploadAnswers) (a : App.t) :
  let a' := run (handleFileUpload (Some file) w) a in
  let uploaded := plain_toast "Document uploaded successfully!" in
  App.uploading a' = false
  /\ ((App.db a' = App.db a
       /\ App.documents a' = App.documents a
       /\ exists e, App.toasts a' = App.toasts a ++ [error_toast "Upload failed" e])
      \/ (exists d,
             Pg.documents (App.db a') = Pg.documents (App.db a) ++ [d]
             /\ match on_upload_reload w with
                | Delivered =>
                    App.toasts a' = App.toasts a ++ [uploaded]
                    /\ In d (App.documents a')
                | Failed msg =>
                    App.toasts a'
                    = App.toasts a
                      ++ [uploaded; error_toast "Error loading documents" (Rejected msg)]
                    /\ App.documents a' = App.documents a
                end)).
Proof.
  cbv zeta. unfold handleFileUpload, loadDocuments. handler. cbn.
  destruct (is_pdf file);
    [destruct (extractTextFromPDF (File.pdf file)) as [text|e]
    |destruct (File.text file) as [text|e]]; cbn;
    try (split; [reflexivity|left; eauto]); upload_cases a w.
Qed.

(* ----------------------------------------------------------------- *)
(** ** Delete *)

(** X17. Deleting an id under which the signed-in user has no document, be
    it unused or another user's document, removes nothing, and yet the
    deletion is notified as done. *)
Theorem handleDelete_of_others_removes_nothing
        (id : uuid) (w : DeleteAnswers) (a : App.t) :
  on_document_delete w = Delivered ->
  (forall d, In d (Pg.documents (App.db a)) -> Pg.Document.id d = id ->
             App.user a <> Some (Pg.Document.user_id d)) ->
  let a' := run (handleDelete id w) a in
  App.db a' = App.db a
  /\ exists rest, App.toasts a' = App.toasts a ++ plain_toast "Document deleted" :: rest.
Proof.
  intros Hfetch Hnone. cbv zeta. split.
  - rewrite handleDelete_db, Hfetch. apply delete_document_no_match.
    intros d Hd. unfold Pg.deleted_document.
    destruct (N.eqb (Pg.Document.id d) id) eqn:Hid; [|reflexivity].
    apply N.eqb_eq in Hid. specialize (Hnone d Hd Hid). cbn.
    destruct (App.user a) as [v|]; cbn; [|reflexivity].
    apply N.eqb_neq. congruence.
  - unfold handleDelete, loadDocuments. handler. cbn. rewrite Hfetch. cbn.
    destruct (on_delete_reload w); cbn; rewrite <- ?app_assoc; cbn; eauto.
Qed.

(** X18. After a delete and the reload that follows it, both delivered, the
    list shows no document under the deleted id. *)
Theorem handleDelete_then_list (id : uuid) (w : DeleteAnswers) (a : App.t) :
  on_document_delete w = Delivered ->
  on_delete_reload w = Delivered ->
  let a' := run (handleDelete id w) a in
  App.documents a' = Pg.select_documents (App.user a) (App.db a')
  /\ forall d, In d (App.documents a') -> Pg.Document.id d <> id.
Proof.
  intros Hdelete Hreload. cbv zeta.
  assert (Hlist : App.documents (run (handleDelete id w) a)
                  = Pg.select_documents (App.user a) (App.db (run (handleDelete id w) a))).
  { unfold handleDelete, loadDocuments. handler. cbn.
    rewrite Hdelete. cbn. rewrite Hreload. reflexivity. }
  split; [exact Hlist|].
  intros d Hd Hid. rewrite Hlist in Hd. apply select_documents_In in Hd as [Hd Hown].
  rewrite handleDelete_db, Hdelete in Hd. unfold Pg.delete_document in Hd. cbn in Hd.
  apply filter_In in Hd as [_ Hkept]. unfold Pg.deleted_document in Hkept.
  apply N.eqb_eq in Hid. now rewrite Hid, Hown in Hkept.
Qed.

Lemma handleDelete_chat_state (id : uuid) (w : DeleteAnswers) (a : App.t) :
  let a' := run (handleDelete id w) a in
  App.sessionId a' = App.sessionId a
  /\ App.input a' = App.input a
  /\ App.user a' = App.user a
  /\ App.invocations a' = App.invocations a.
Proof.
  cbv zeta. unfold handleDelete, loadDocuments. handler. cbn.
  destruct (on_document_delete w); cbn; [destruct (on_delete_reload w)|]; cbn; auto.
Qed.

(** X19. Deleting the document of the active session leaves the chat open
    on a session that is gone: the next send stores nothing, does not call
    the edge function and reports an error. *)
Theorem send_after_delete_stores_nothing
        (id : uuid) (wd : DeleteAnswers) (dc : Js.str) (ws : SendAnswers) (a : App.t)
        (d : Pg.Document.t) (sid : uuid) :
  on_document_delete wd = Delivered ->
  In d (Pg.documents (App.db a)) -> Pg.Document.id d = id ->
  App.user a = Some (Pg.Document.user_id d) ->
  App.sessionId a = Some sid ->
  (forall s, In s (Pg.chat_sessions (App.db a)) -> Pg.ChatSession.id s = sid ->
             Pg.ChatSession.document_id s = id) ->
  send_refused (App.input a) (App.sessionId a) dc = false ->
  let a1 := run (handleDelete id wd) a in
  let a2 := run (handleSend dc ws) a1 in
  App.db a2 = App.db a1
  /\ App.invocations a2 = App.invocations a
  /\ exists e, App.toasts a2 = App.toasts a1 ++ [error_toast "Error" e].
Proof.
  intros Hdelete Hd Hid Huser Hsid Hactive Hguard. cbv zeta.
  destruct (handleDelete_chat_state id wd a) as (Hsid1 & Hinput1 & Huser1 & Hinv1).
  set (a1 := run (handleDelete id wd) a) in *.
  assert (Hgone : Pg.own_session (App.user a1) sid (App.db a1) = false).
  { unfold Pg.own_session. destruct (existsb _ _) eqn:H; [|reflexivity].
    apply existsb_exists in H as (s & Hs & H). apply andb_prop in H as [Hkey _].
    apply N.eqb_eq in Hkey. unfold a1 in Hs.
    rewrite handleDelete_db, Hdelete in Hs. unfold Pg.delete_document in Hs. cbn in Hs.
    apply filter_In in Hs as [Hs Hkept].
    assert (Pg.cascaded_session (App.user a) id (App.db a) s = true);
      [|now destruct (Pg.cascaded_session _ _ _ _)].
    apply cascaded_session_iff. split; [now apply Hactive|]. eauto. }
  assert (Hrefused : Pg.insert_message (App.user a1) (user_defaults ws) sid
                       Pg.ChatMessage.user (Js.trim (App.input a1)) (App.db a1)
                     = Throw insufficient_privilege).
  { unfold Pg.insert_message. now rewrite Hgone. }
  assert (Hguard1 : send_refused (App.input a1) (App.sessionId a1) dc = false)
    by now rewrite Hinput1, Hsid1.
  unfold handleSend. handler. cbn. rewrite Hguard1, Hsid1, Hsid. cbn.
  destruct (on_user_insert ws); cbn; [rewrite Hrefused; cbn|];
    rewrite Hinv1; eauto.
Qed.

(* ----------------------------------------------------------------- *)
(** ** Selecting a document *)

(** X20. Selecting a document on which the user has sessions, with the
    queries answered, reopens the newest of them: it becomes the active
    session, its messages are the ones shown, no session is created and
    nothing is notified. *)
Theorem selection_reopens_latest_session
        (doc u : uuid) (w : SessionAnswers) (a : App.t) (s : Pg.ChatSession.t) :
  App.user a = Some u ->
  on_session_select w = Delivered ->
  on_messages_select w = Delivered ->
  In s (Pg.chat_sessions (App.db a)) -> session_of u doc s ->
  let a' := run (loadOrCreateSession (Some doc) w) a in
  App.db a' = App.db a
  /\ App.toasts a' = App.toasts a
  /\ exists s0,
      In s0 (Pg.chat_sessions (App.db a)) /\ session_of u doc s0
      /\ (forall s', In s' (Pg.chat_sessions (App.db a)) -> session_of u doc s' ->
                     (Pg.ChatSession.created_at s' <= Pg.ChatSession.created_at s0)%Z)
      /\ App.sessionId a' = Some (Pg.ChatSession.id s0)
      /\ App.messages a'
         = Pg.select_messages (Some u) (Pg.ChatSession.id s0) (App.db a).
Proof.
  intros Hu Hsel Hload Hs Hof. cbv zeta.
  unfold loadOrCreateSession, loadMessages. handler. cbn.
  rewrite Hu. cbn. rewrite Hsel. cbn. rewrite Hu.
  pose proof (select_latest_session_spec u doc (App.db a)) as Hspec.
  destruct (Pg.select_latest_session _ _ _ _) as [|sid rest]; cbn.
  - now destruct (Hspec s Hs).
  - destruct Hspec as (_ & s0 & Hs0 & Hof0 & Hid & Hmax).
    rewrite Hload. cbn. rewrite Hu. repeat split.
    exists s0. rewrite Hid. auto.
Qed.

(** X21. Selecting another document makes it the selected one and shows the
    content of its entry in the list; if the list has no entry for it, the
    content shown before stays.  Selecting the selected document again does
    nothing at all. *)
Theorem selecting_shows_document_content (id : uuid) (w : SessionAnswers) (a : App.t) :
  let a' := step (SelectDoc id w) a in
  (same_selection (App.selectedDocId a) id = true -> a' = a)
  /\ (same_selection (App.selectedDocId a) id = false ->
      App.selectedDocId a' = Some id
      /\ App.documents a' = App.documents a
      /\ App.selectedDocContent a'
         = match find (fun d => N.eqb (Pg.Document.id d) id) (App.documents a) with
           | Some d => Pg.Document.content d
           | None => App.selectedDocContent a
           end).
Proof.
  cbv zeta. split; intros Hsame.
  - unfold step, perform. handler. cbn. now rewrite Hsame.
  - destruct a. cbn in Hsame. unfold step, perform. handler. cbn. rewrite Hsame.
    unfold loadOrCreateSession, loadMessages, syncSelectedDocContent. handler. cbn.
    answer_cases; auto.
Qed.


Lemma select_latest_session_none (u doc : uuid) (db : Pg.DB) :
  (forall s, In s (Pg.chat_sessions db) -> ~ session_of u doc s) ->
  Pg.select_latest_session (Some u) doc u db = [].
Proof.
  intros Hnone. pose proof (select_latest_session_spec u doc db) as Hspec.
  destruct (Pg.select_latest_session _ _ _ _) as [|sid rest]; [reflexivity|].
  destruct Hspec as (_ & s & Hs & Hof & _). now destruct (Hnone s Hs).
Qed.



(** X22. A selection that fails leaves the chat on the session it was on.
    With a stored session active, selecting a document on which the user has
    no session, with the session insert not getting through, changes no
    table, notifies "Session error" and keeps the active session and the
    messages shown.  That session is not one of the user on the selected
    document, and every message row a send stores after that is in it; the
    send creates no session. *)
Theorem failed_selection_keeps_previous_session (a : App.t) (doc u : uuid)
        (s : Pg.ChatSession.t) (w : SessionAnswers) (reason : Js.str) :
  App.user a = Some u ->
  In s (Pg.chat_sessions (App.db a)) ->
  App.sessionId a = Some (Pg.ChatSession.id s) ->
  (forall s', In s' (Pg.chat_sessions (App.db a)) -> ~ session_of u doc s') ->
  on_session_insert w = Failed reason ->
  let a1 := run (loadOrCreateSession (Some doc) w) a in
  App.db a1 = App.db a
  /\ App.sessionId a1 = Some (Pg.ChatSession.id s)
  /\ ~ session_of u doc s
  /\ App.messages a1 = App.messages a
  /\ App.toasts a1 = App.toasts a ++ [error_toast "Session error" (Rejected reason)]
  /\ forall (dc : Js.str) (ws : SendAnswers),
       let a2 := run (handleSend dc ws) a1 in
       Pg.chat_sessions (App.db a2) = Pg.chat_sessions (App.db a)
       /\ exists new,
           Pg.chat_messages (App.db a2) = Pg.chat_messages (App.db a) ++ new
           /\ forall m, In m new ->
                Pg.ChatMessage.session_id m = Pg.ChatSession.id s.
Proof.
  intros Hu Hin Hactive Hnone Hins a1.
  assert (Hrun : App.db a1 = App.db a
                 /\ App.sessionId a1 = Some (Pg.ChatSession.id s)
                 /\ App.messages a1 = App.messages a
                 /\ App.toasts a1
                    = App.toasts a ++ [error_toast "Session error" (Rejected reason)]).
  { subst a1. unfold loadOrCreateSession. handler. cbn.
    rewrite Hu. cbn.
    destruct (on_session_select w); cbn.
    - rewrite Hu, (@select_latest_session_none u doc (App.db a) Hnone). cbn.
      rewrite Hins. cbn. auto.
    - rewrite Hins. cbn. auto. }
  destruct Hrun as (Hdb & Hsid & Hmsgs & Htoasts).
  split; [assumption|]. split; [assumption|]. split; [now apply Hnone|].
  repeat split; try assumption.
  - destruct (handleSend_tables a1 dc ws) as (_ & Hs & _). now rewrite <- Hdb.
  - destruct (handleSend_tables a1 dc ws) as (_ & _ & new & Hm & Hnew).
    exists new. rewrite <- Hdb. split; [exact Hm|].
    intros m Hm_in. destruct (Hnew m Hm_in) as [Hto _]. congruence.
Qed.

(* ----------------------------------------------------------------- *)
(** ** The further properties on the sample data *)

Lemma keys_unique_chatted : keys_unique (App.db Sample.chatted).
Proof.
  unfold keys_unique. cbn.
  repeat split; repeat constructor; cbn; intuition discriminate.
Qed.

Lemma references_hold_chatted : references_hold (App.db Sample.chatted).
Proof.
  split; cbn.
  - intros s [<-|[]]. exists Sample.notes. split; [now left|reflexivity].
  - intros m [<-|[<-|[]]]; exists Sample.session10; (split; [now left|reflexivity]).
Qed.

(** A second round and the deletion of the notes keep the keys apart. *)
Lemma primary_keys_sample :
  keys_unique (App.db (steps [Send Sample.send_ok; Delete 1%N Sample.delete_ok]
                             Sample.chatted)).
Proof.
  apply (primary_keys_stay_unique
           [Send Sample.send_ok; Delete 1%N Sample.delete_ok] Sample.chatted).
  exact keys_unique_chatted.
Defined.

Lemma references_sample :
  references_hold (App.db (steps [Send Sample.send_ok; Delete 1%N Sample.delete_ok]
                                 Sample.chatted)).
Proof.
  apply (references_stay_valid
           [Send Sample.send_ok; Delete 1%N Sample.delete_ok] Sample.chatted).
  exact references_hold_chatted.
Defined.

(** Alice cannot delete Bob's plan, and her upload does not show among his
    documents. *)
Lemma other_users_documents_sample :
  documents_of Sample.bob
    (App.db (steps [Delete 3%N Sample.delete_ok;
                    Upload (Some Sample.todo_txt) Sample.upload_ok] Sample.shared))
  = [Sample.bobs_plan].
Proof.
  rewrite (other_users_documents_untouched
             [Delete 3%N Sample.delete_ok;
              Upload (Some Sample.todo_txt) Sample.upload_ok]
             Sample.shared (u := Sample.bob)).
  - reflexivity.
  - cbn. discriminate.
Defined.

Lemma signed_out_sample :
  let acts := [Send Sample.send_ok; Upload (Some Sample.todo_txt) Sample.upload_ok;
               Delete 1%N Sample.delete_ok] in
  App.db (steps acts Sample.signed_out) = App.db Sample.chatted
  /\ App.invocations (steps acts Sample.signed_out) = []
  /\ App.user (steps acts Sample.signed_out) = None.
Proof.
  exact (signed_out_changes_nothing
           [Send Sample.send_ok; Upload (Some Sample.todo_txt) Sample.upload_ok;
            Delete 1%N Sample.delete_ok] Sample.signed_out eq_refl).
Defined.

(** Alice's " hi " is stored as "hi", followed by "hello". *)
Lemma handleSend_round_trip_sample :
  let a' := run (handleSend (Js.lit "alpha") Sample.send_ok) Sample.chatting in
  List.map Pg.ChatMessage.content (Pg.chat_messages (App.db a'))
  = [Js.lit "hi"; Js.lit "hello"]
  /\ List.map message (App.invocations a') = [Js.lit "hi"]
  /\ App.input a' = [].
Proof.
  cbv zeta.
  destruct (@handleSend_round_trip Sample.chatting (Js.lit "alpha") Sample.send_ok
              10%N (Js.lit "hello"))
    as (Hstored & _ & Hcalls & Hinput & _).
  - reflexivity.
  - reflexivity.
  - reflexivity.
  - reflexivity.
  - reflexivity.
  - reflexivity.
  - intros m [].
  - cbn. discriminate.
  - rewrite Hstored, Hcalls, Hinput. repeat split.
Defined.

(** On a session that is not stored the insert is refused. *)
Lemma handleSend_question_not_stored_sample :
  let a' := run (handleSend (Js.lit "alpha") Sample.send_ok) Sample.orphaned in
  App.db a' = App.db Sample.orphaned
  /\ App.invocations a' = []
  /\ App.input a' = []
  /\ List.length (App.toasts a') = 1.
Proof.
  cbv zeta.
  destruct (@handleSend_question_not_stored Sample.orphaned (Js.lit "alpha")
              Sample.send_ok 10%N)
    as (Hdb & Hcalls & _ & Hinput & _ & e & Htoasts).
  - reflexivity.
  - reflexivity.
  - right. exists insufficient_privilege. reflexivity.
  - rewrite Hdb, Hcalls, Hinput, Htoasts. repeat split.
Defined.

Lemma handleSend_answer_not_stored_sample :
  let a' := run (handleSend (Js.lit "alpha") Sample.send_answer_lost) Sample.chatting in
  Pg.chat_messages (App.db a') = [Sample.greeting]
  /\ App.messages a' = [Sample.greeting]
  /\ List.length (App.toasts a') = 1.
Proof.
  cbv zeta.
  destruct (@handleSend_answer_not_stored Sample.chatting (Js.lit "alpha")
              Sample.send_answer_lost 10%N (Js.lit "hello") Sample.greeting
              {| Pg.documents := [Sample.notes];
                 Pg.chat_sessions := [Sample.session10];
                 Pg.chat_messages := [Sample.greeting] |})
    as (Hstored & _ & Hshown & _ & _ & e & Htoasts).
  - reflexivity.
  - reflexivity.
  - reflexivity.
  - reflexivity.
  - reflexivity.
  - left. eexists. reflexivity.
  - rewrite Hstored, Hshown, Htoasts. repeat split.
Defined.

Lemma handleSend_settles_sample :
  let a' := run (handleSend (Js.lit "alpha") Sample.send_ok) Sample.chatting in
  App.input a' = [] /\ App.loading a' = false.
Proof.
  cbv zeta.
  destruct (@handleSend_settles Sample.chatting (Js.lit "alpha") Sample.send_ok eq_refl)
    as (Hinput & Hloading & _).
  now split.
Defined.

Lemma loadDocuments_sample :
  App.documents (run (loadDocuments Delivered) Sample.shared) = [Sample.notes].
Proof.
  destruct (@loadDocuments_lists_own_newest_first Sample.shared Sample.alice
              eq_refl) as ((Hperm & _) & _).
  reflexivity.
Defined.

Lemma extractTextFromPDF_rejection_sample :
  extractTextFromPDF (Normal Sample.torn_pdf)
  = Throw (Rejected (Js.lit "Invalid page request")).
Proof.
  apply (@extractTextFromPDF_propagates_rejection Sample.torn_pdf 2
           (Rejected (Js.lit "Invalid page request"))
           [[ {| Pdf.str := Js.lit "Hello" |} ]]).
  - cbn. lia.
  - reflexivity.
  - reflexivity.
Defined.

Lemma extractTextFromPDF_blank_sample :
  extractTextFromPDF (Normal Sample.scan_pdf) = Normal [].
Proof.
  apply (@extractTextFromPDF_blank_document Sample.scan_pdf Sample.scan_pages).
  - reflexivity.
  - intros items item [<-|[<-|[]]]; [intros []|intros [<-|[]]; reflexivity].
Defined.

Lemma handleFileUpload_pdf_sample :
  exists d,
    Pg.documents (App.db (run (handleFileUpload (Some Sample.report_pdf) Sample.upload_ok)
                              Sample.fresh))
    = [Sample.notes] ++ [d]
    /\ Pg.Document.content d = Js.lit "Hello world" ++ Js.LFLF ++ Js.lit "Bye"
    /\ Pg.Document.title d = Js.lit "report.pdf"
    /\ Pg.Document.file_type d = Js.lit "application/pdf"
    /\ Pg.Document.file_size d = 1234%Z
    /\ Pg.Document.user_id d = Sample.alice.
Proof.
  apply (@handleFileUpload_stores_extracted_text Sample.report_pdf Sample.upload_ok
           Sample.fresh Sample.pdf Sample.pages Sample.alice).
  - reflexivity.
  - reflexivity.
  - reflexivity.
  - reflexivity.
  - reflexivity.
  - intros d [<-|[]]. vm_compute. discriminate.
Defined.

(** Alice's delete of Bob's plan is notified as done and removes nothing. *)
Lemma handleDelete_of_others_sample :
  let a' := run (handleDelete 3%N Sample.delete_ok) Sample.shared in
  App.db a' = App.db Sample.shared
  /\ exists rest, App.toasts a' = [] ++ plain_toast "Document deleted" :: rest.
Proof.
  apply (@handleDelete_of_others_removes_nothing 3%N Sample.delete_ok Sample.shared).
  - reflexivity.
  - intros d [<-|[<-|[]]]; cbn; discriminate.
Defined.

Lemma handleDelete_then_list_sample :
  App.documents (run (handleDelete 1%N Sample.delete_ok) Sample.chatted) = [].
Proof.
  destruct (@handleDelete_then_list 1%N Sample.delete_ok Sample.chatted
              eq_refl eq_refl) as (Hlist & _).
  rewrite Hlist. reflexivity.
Defined.

Lemma send_after_delete_sample :
  let a1 := run (handleDelete 1%N Sample.delete_ok) Sample.chatted in
  let a2 := run (handleSend (Js.lit "alpha") Sample.send_ok) a1 in
  Pg.chat_messages (App.db a2) = [] /\ App.invocations a2 = [].
Proof.
  cbv zeta.
  destruct (@send_after_delete_stores_nothing 1%N Sample.delete_ok
              (Js.lit "alpha") Sample.send_ok Sample.chatted Sample.notes 10%N)
    as (Hdb & Hcalls & _).
  - reflexivity.
  - now left.
  - reflexivity.
  - reflexivity.
  - reflexivity.
  - intros s [<-|[]] _. reflexivity.
  - reflexivity.
  - rewrite Hdb, Hcalls. split; reflexivity.
Defined.

Lemma selection_reopens_sample :
  let a' := run (loadOrCreateSession (Some 1%N) Sample.session_ok) Sample.chatted in
  App.sessionId a' = Some 10%N
  /\ App.messages a' = [Sample.question; Sample.reply]
  /\ App.db a' = App.db Sample.chatted.
Proof.
  cbv zeta.
  destruct (@selection_reopens_latest_session 1%N Sample.alice
              Sample.session_ok Sample.chatted Sample.session10)
    as (Hdb & _ & _).
  - reflexivity.
  - reflexivity.
  - reflexivity.
  - now left.
  - split; reflexivity.
  - split; [reflexivity|]. split; [reflexivity|exact Hdb].
Defined.


(** Alice chats on her notes in session 10 and selects her outline; the
    session insert fails; the question she sends about the outline is stored
    in session 10. *)
Lemma failed_selection_sample :
  let a := Sample.two_documents in
  let a1 := run (loadOrCreateSession (Some 4%N) Sample.session_insert_fails) a in
  let a2 := run (handleSend (Js.lit "beta") Sample.send_ok) a1 in
  (App.db a1 = App.db a
   /\ App.sessionId a1 = Some 10%N
   /\ ~ session_of Sample.alice 4%N Sample.session10
   /\ App.messages a1 = App.messages a
   /\ App.toasts a1
      = App.toasts a
        ++ [error_toast "Session error" (Rejected (Js.lit "Failed to fetch"))]
   /\ forall (dc : Js.str) (ws : SendAnswers),
        let a2 := run (handleSend dc ws) a1 in
        Pg.chat_sessions (App.db a2) = Pg.chat_sessions (App.db a)
        /\ exists new,
            Pg.chat_messages (App.db a2) = Pg.chat_messages (App.db a) ++ new
            /\ forall m, In m new -> Pg.ChatMessage.session_id m = 10%N)
  /\ Pg.chat_sessions (App.db a2) = [Sample.session10]
  /\ List.map Pg.ChatMessage.session_id (Pg.chat_messages (App.db a2)) = [10%N; 10%N]
  /\ List.map documentContent (App.invocations a2) = [Js.lit "beta"].
Proof.
  cbv zeta. split; [|repeat split; reflexivity].
  apply (@failed_selection_keeps_previous_session
           Sample.two_documents 4%N Sample.alice Sample.session10
           Sample.session_insert_fails (Js.lit "Failed to fetch")).
  - reflexivity.
  - now left.
  - reflexivity.
  - intros s' [<-|[]] [_ H]. discriminate H.
  - reflexivity.
Defined.
